(** * DIET classifier head: loss layer and joint forward pass

    A shallow embedding of [src/layers/loss.py] (class
    [SingleLabelDotProductLoss]) and of [src/models/classifier.py] (class
    [DIETClassifier]).

    Tensors of floats are nested lists over the real numbers: the
    arithmetic of the program is read in exact real arithmetic.  Python
    exceptions are explicit, through the error monad [result]; the random
    numbers a call consumes (dropout masks, [random.choice]) are explicit
    arguments. *)

From Stdlib Require Import String.
From Stdlib Require Import Reals Lra Lia List ZArith Bool.
Import ListNotations.

Open Scope R_scope.

(** ** Exceptions and the error monad *)

(** The exceptions the modelled code can raise, with the site that raises
    them.  [FloatNaN] is not an exception: it marks a tensor that holds
    [nan] (the mean of an empty tensor), which has no counterpart in [R]. *)
Inductive exn : Type :=
| AttributeError (what : string)
| IndexError (what : string)
| RuntimeError (what : string)
| TypeError (what : string)
| FloatNaN.

Inductive result (A : Type) : Type :=
| Ok (a : A)
| Raise (e : exn).

Arguments Ok {A} a.
Arguments Raise {A} e.

Definition bind {A B : Type} (r : result A) (k : A -> result B) : result B :=
  match r with
  | Ok a => k a
  | Raise e => Raise e
  end.

Notation "x <- r ;; k" := (bind r (fun x => k))
  (at level 61, r at next level, right associativity).

(** Run [f] on every element, from left to right, and stop at the first
    exception: a Python [for] loop that appends to a list. *)
Fixpoint mapM {A B : Type} (f : A -> result B) (l : list A) : result (list B) :=
  match l with
  | [] => Ok []
  | a :: l' => b <- f a ;; bs <- mapM f l' ;; Ok (b :: bs)
  end.

(** The same loop when the body also depends on the position. *)
Fixpoint mapMi_from {A B : Type} (i : nat) (f : nat -> A -> result B)
  (l : list A) : result (list B) :=
  match l with
  | [] => Ok []
  | a :: l' => b <- f i a ;; bs <- mapMi_from (S i) f l' ;; Ok (b :: bs)
  end.

Definition mapMi {A B : Type} (f : nat -> A -> result B) (l : list A)
  : result (list B) := mapMi_from 0 f l.

(** ** Tensor primitives *)

Abbreviation tensor1 := (list R) (only parsing).
Abbreviation tensor2 := (list (list R)) (only parsing).
Abbreviation tensor3 := (list (list (list R))) (only parsing).

Fixpoint tensor_sum (t : tensor1) : R :=
  match t with
  | [] => 0
  | x :: t' => x + tensor_sum t'
  end.

(** [torch.mean]: [nan] on an empty tensor. *)
Definition tensor_mean (t : tensor1) : result R :=
  match t with
  | [] => Raise FloatNaN
  | _ => Ok (tensor_sum t / INR (length t))
  end.

Fixpoint max_from (m : R) (t : tensor1) : R :=
  match t with
  | [] => m
  | x :: t' => max_from (Rmax m x) t'
  end.

(** [torch.max] without [dim]: the maximum over all elements; it raises on
    an empty tensor. *)
Definition tensor_max (t : tensor1) : result R :=
  match t with
  | [] => Raise (RuntimeError "max(): Expected reduction dim to be specified for input.numel() == 0")
  | x :: t' => Ok (max_from x t')
  end.

(** [torch.stack] of a Python list of tensors along a new first axis. *)
Definition stack {A : Type} (l : list A) : result (list A) :=
  match l with
  | [] => Raise (RuntimeError "stack expects a non-empty TensorList")
  | _ => Ok l
  end.

(** Broadcasting of a binary operation along one axis: the sizes agree, or
    one of them is 1. *)
Definition broadcast2 {A B C : Type} (f : A -> B -> result C)
  (xs : list A) (ys : list B) : result (list C) :=
  if Nat.eqb (length xs) (length ys)
  then mapM (fun p => f (fst p) (snd p)) (combine xs ys)
  else match xs, ys with
       | [x], _ => mapM (fun y => f x y) ys
       | _, [y] => mapM (fun x => f x y) xs
       | _, _ => Raise (RuntimeError "The size of tensor a must match the size of tensor b")
       end.

(** ** The loss layer *)

Module Loss.

Record SingleLabelDotProductLoss : Type := {
  mu_pos : R;
  mu_neg : R;
  use_max_sim_neg : bool;
  neg_lambda : R
}.

(** [SingleLabelDotProductLoss()] with the default arguments of [__init__]. *)
Definition default : SingleLabelDotProductLoss :=
  {| mu_pos := 0.8; mu_neg := -0.2; use_max_sim_neg := true; neg_lambda := 0.5 |}.

(** The floor of [torch.nn.functional.normalize]. *)
Definition eps : R := / 1000000000000.

Definition norm2 (v : tensor1) : R := sqrt (tensor_sum (map (fun x => x * x) v)).

(** [normalize(v, p=2, dim=-1)] on one row: [v / max(||v||, eps)]. *)
Definition normalize (v : tensor1) : tensor1 :=
  map (fun x => x / Rmax (norm2 v) eps) v.

(** [sim] on two 1-D tensors. *)
Definition sim_vec (a b : tensor1) : result R :=
  let a := normalize a in
  let b := normalize b in
  prod <- broadcast2 (fun x y => Ok (x * y)) a b ;;
  Ok (tensor_sum prod).

(** [sim] on two 2-D tensors: the rows are normalized one by one, the
    product is broadcast, the last axis is summed. *)
Definition sim (a b : tensor2) : result tensor1 :=
  broadcast2 sim_vec a b.

(** The positive hinge of [_loss_margin].  [sim_pos] is a 1-D tensor, on
    which [torch.squeeze(_, axis=-1)] changes nothing but for a single
    element, which the broadcast against [torch.Tensor([0])] makes 1-D
    again. *)
Definition pos_term (self : SingleLabelDotProductLoss) (sim_pos : tensor1) : tensor1 :=
  map (fun s => Rmax 0 (mu_pos self - s)) sim_pos.

(** The scalar that [_loss_margin] adds to every example.  [sim_neg] is
    given flattened: both branches reduce it with a global [torch.max]. *)
Definition neg_term (self : SingleLabelDotProductLoss) (sim_neg : tensor1) : result R :=
  if use_max_sim_neg self then
    max_sim_neg <- tensor_max sim_neg ;;
    Ok (Rmax 0 (mu_neg self + max_sim_neg))
  else
    let max_margin := map (fun s => Rmax 0 (mu_neg self + s)) sim_neg in
    tensor_max max_margin.

Definition _loss_margin (self : SingleLabelDotProductLoss)
  (sim_pos sim_neg : tensor1) : result R :=
  let loss := pos_term self sim_pos in
  neg <- neg_term self sim_neg ;;
  let loss := map (fun l => l + neg) loss in
  tensor_mean loss.


(** [_scale_loss]: the coefficient of the confidence scaling.  A 0-dim
    tensor is a tensor of one element. *)
Definition _scale_loss (log_likelihood : tensor1) : result tensor1 :=
  let p := map exp log_likelihood in
  max_p <- tensor_max p ;;
  Ok (if Rlt_dec 0.5 max_p
      then map (fun pi => ((1 - pi) / 0.5) ^ 4) p
      else map (fun _ => 1) p).

(** [torch.nn.functional.log_softmax(_, dim=-1)] on one row. *)
Definition log_softmax (row : tensor1) : tensor1 :=
  map (fun x => x - ln (tensor_sum (map exp row))) row.

(** [torch.nn.functional.nll_loss] with its default [reduction='mean']:
    the mean over the batch of minus the log-probability of the target. *)
Definition nll_loss (input : tensor2) (target : list nat) : result R :=
  picked <- mapM (fun p =>
                    match nth_error (fst p) (snd p) with
                    | Some v => Ok (- v)
                    | None => Raise (IndexError "Target is out of bounds")
                    end) (combine input target) ;;
  tensor_mean picked.

Definition sigmoid (x : R) : R := / (1 + exp (- x)).

(** One element of [binary_cross_entropy_with_logits]. *)
Definition bce_with_logits (x y : R) : R :=
  - (y * ln (sigmoid x) + (1 - y) * ln (1 - sigmoid x)).

(** [binary_cross_entropy_with_logits] with its default
    [reduction='mean']: the mean over every element of the batch. *)
Definition binary_cross_entropy_with_logits (input target : tensor2) : result R :=
  tensor_mean
    (concat (map (fun p => map (fun q => bce_with_logits (fst q) (snd q))
                              (combine (fst p) (snd p)))
                 (combine input target))).

(** [torch.cat] of the two columns [sim_pos] and [sim_neg], each reshaped
    to [(batch, 1)], along the last axis. *)
Definition cat_columns (sim_pos sim_neg : tensor1) : result tensor2 :=
  if Nat.eqb (length sim_pos) (length sim_neg)
  then Ok (map (fun p => [fst p; snd p]) (combine sim_pos sim_neg))
  else Raise (RuntimeError "Sizes of tensors must match except in dimension 1").

Definition _loss_cross_entropy (self : SingleLabelDotProductLoss)
  (sim_pos sim_neg : tensor1) : result R :=
  logits <- cat_columns sim_pos sim_neg ;;
  let softmax_label_ids := map (fun _ => 0%nat) logits in
  soft_max_loss <- nll_loss (map log_softmax logits) softmax_label_ids ;;
  let sigmoid_labels := map (fun row => map (fun _ => 1) (firstn 1 row)
                                        ++ map (fun _ => 0) (skipn 1 row)) logits in
  sigmoid_loss <- binary_cross_entropy_with_logits logits sigmoid_labels ;;
  (* [torch.mean(sigmoid_loss, dim=-1)] leaves the 0-dim [sigmoid_loss] as it is *)
  let loss := soft_max_loss + sigmoid_loss in
  scale <- _scale_loss [- loss] ;;
  match scale with
  | [s] => Ok (loss * s)   (* [len(loss.shape)] is 0 *)
  | _ => Raise (RuntimeError "output with shape [] doesn't match the broadcast shape")
  end.

Definition forward (self : SingleLabelDotProductLoss)
  (inputs_embed labels_embed_positive labels_embed_negative : tensor2) : result R :=
  sim_pos <- sim inputs_embed labels_embed_positive ;;
  sim_neg <- sim inputs_embed labels_embed_negative ;;
  let loss := _loss_margin self sim_pos sim_neg in
  (* loss = self._loss_cross_entropy(sim_pos,sim_neg) *)
  loss.

(** The loss layer with the commented line of [forward] in place of the
    active one: what a selector of the hybrid strategy would have to
    return. *)
Definition forward_cross_entropy (self : SingleLabelDotProductLoss)
  (inputs_embed labels_embed_positive labels_embed_negative : tensor2) : result R :=
  sim_pos <- sim inputs_embed labels_embed_positive ;;
  sim_neg <- sim inputs_embed labels_embed_negative ;;
  _loss_cross_entropy self sim_pos sim_neg.

(** The hybrid loss as the specification words it: the raw loss of one
    example is the softmax term of its two logits plus the mean over its
    two columns of the sigmoid term; the scaling acts on the per-example
    losses; the batch mean comes last. *)
Definition raw_loss_spec (sp sn : R) : R :=
  - (sp - ln (exp sp + exp sn))
  + (bce_with_logits sp 1 + bce_with_logits sn 0) / 2.

Definition raw_losses (sim_pos sim_neg : tensor1) : tensor1 :=
  map (fun q => raw_loss_spec (fst q) (snd q)) (combine sim_pos sim_neg).

Definition hybrid_loss_spec (sim_pos sim_neg : tensor1) : result R :=
  if Nat.eqb (length sim_pos) (length sim_neg) then
    let raw := raw_losses sim_pos sim_neg in
    scale <- _scale_loss (map Ropp raw) ;;
    tensor_mean (map (fun p => fst p * snd p) (combine raw scale))
  else Raise (RuntimeError "Sizes of tensors must match except in dimension 1").

End Loss.

(** ** The contrastive loss *)

Module Contrastive.

Record ContrastiveLoss : Type := {
  m : R
}.

(** [ContrastiveLoss()] with the default margin of [__init__]. *)
Definition default : ContrastiveLoss := {| m := 2 |}.

(** The [eps] of [torch.nn.functional.pairwise_distance]. *)
Definition eps : R := / 1000000.

(** [pairwise_distance] on one pair of rows: the 2-norm of
    [y1 - y2 + eps]. *)
Definition pairwise_distance_row (y1 y2 : tensor1) : result R :=
  diff <- broadcast2 (fun a b => Ok (a - b + eps)) y1 y2 ;;
  Ok (sqrt (tensor_sum (map (fun x => x * x) diff))).

Definition pairwise_distance (y1 y2 : tensor2) : result tensor1 :=
  broadcast2 pairwise_distance_row y1 y2.

Definition forward (self : ContrastiveLoss) (y1 y2 : tensor2) (d : Z) : result R :=
  euc_dist <- pairwise_distance y1 y2 ;;
  if (d =? 0)%Z then
    tensor_mean (map (fun x => x ^ 2) euc_dist)
  else
    let delta := map (fun x => m self - x) euc_dist in
    let delta := map (fun x => Rmax x 0) delta in
    tensor_mean (map (fun x => x ^ 2) delta).

End Contrastive.

(** ** The joint classification head *)

Module Classifier.

Abbreviation tensor4 := (list (list (list (list R)))) (only parsing).
Abbreviation tensor2Z := (list (list Z)) (only parsing).

(** What [forward] hands over to the encoder. *)
Record bert_args : Type := {
  input_ids : option tensor2Z;
  attention_mask : option tensor2Z;
  token_type_ids : option tensor2Z;
  position_ids : option tensor2Z;
  head_mask : option tensor2;
  inputs_embeds : option tensor3;
  output_attentions : option bool;
  output_hidden_states : option bool
}.

Record forward_args : Type := {
  bert_inputs : bert_args;
  intent_labels : option (list Z);
  entities_labels : option tensor2Z;
  return_dict : option bool
}.

Inductive extra : Type :=
| ExtraHiddenStates (h : list tensor3)
| ExtraAttentions (a : list tensor4).

(** What the encoder computes: [outputs[0]], [outputs[2:]] and the two
    attributes that [forward] reads. *)
Record encoder_output : Type := {
  last_hidden_state : tensor3;
  rest : list extra;
  hidden_states : option (list tensor3);
  attentions : option (list tensor4)
}.

(** The encoder of the [transformers] library returns a [ModelOutput] when
    it is called with [return_dict=True] and a plain tuple otherwise. *)
Inductive bert_outputs : Type :=
| ModelOutput (o : encoder_output)
| PlainTuple (o : encoder_output).

Definition outputs_data (outputs : bert_outputs) : encoder_output :=
  match outputs with
  | ModelOutput o => o
  | PlainTuple o => o
  end.

(** Attribute access on the value returned by the encoder. *)
Definition getattr {A : Type} (outputs : bert_outputs) (message : string)
  (field : encoder_output -> A) : result A :=
  match outputs with
  | ModelOutput o => Ok (field o)
  | PlainTuple _ => Raise (AttributeError message)
  end.

Inductive intent_logits_t : Type :=
| SimilarityLogits (t : tensor2)
| ClassifierLogits (t : tensor3).

Record output_dict : Type := {
  entities_loss : option R;
  intent_loss : option R;
  loss : option R;
  logits : list (list nat) * intent_logits_t;
  dict_hidden_states : option (list tensor3);
  dict_attentions : option (list tensor4)
}.

Inductive tuple_item : Type :=
| LossItem (l : option R)
| ExtraItem (e : extra).

Inductive forward_output : Type :=
| DictOutput (d : output_dict)
| TupleOutput (items : list tuple_item).

(** The learned parameters, the configuration and the mode of the module.
    The linear layers act on the last axis; the embedding table has
    [num_intents + 2] rows.  The encoder [bert] is the black box of the
    [transformers] library, taken as a function of its arguments: what it
    returns in evaluation mode, or one run of it in training mode, where
    its own dropout is not modelled.

    Modelled from the spec: [crf] and [crf_viterbi_tags] stand for the
    sequence scorer [ConditionalRandomField] of [src/layers/crf.py], which
    is not among the sources: [crf] is its log-likelihood of the gold tags
    under the emissions and the mask, [crf_viterbi_tags] its best-path
    decode, one (path, score) pair per example. *)
Record DIETClassifier : Type := {
  embedding_dimension : nat;
  use_dot_product : bool;
  num_intents : nat;
  use_return_dict : bool;
  hidden_dropout_prob : R;
  training : bool;
  bert : bert_args -> encoder_output;
  entities_dense_embed : tensor1 -> tensor1;
  crf : tensor3 -> tensor2Z -> list (list bool) -> R;
  crf_viterbi_tags : tensor3 -> list (list nat * R);
  intents_output_embed : tensor1 -> tensor1;
  intents_label_embed : nat -> tensor1;
  intents_label_dense : tensor1 -> tensor1;
  intents_classifier : tensor1 -> tensor1
}.

(** The random numbers the head consumes in one call of [forward]: the
    uniform draws behind the two masks of [self.dropout], indexed by
    position, and the draw of [random.choice] for every example.  The
    draws of the dropout inside the encoder are not among them. *)
Record randomness : Type := {
  sequence_noise : nat -> nat -> nat -> R;
  pooled_noise : nat -> nat -> nat -> R;
  neg_draws : nat -> nat
}.

Fixpoint mapi_from {A B : Type} (i : nat) (f : nat -> A -> B) (l : list A) : list B :=
  match l with
  | [] => []
  | a :: l' => f i a :: mapi_from (S i) f l'
  end.

Definition mapi {A B : Type} (f : nat -> A -> B) (l : list A) : list B :=
  mapi_from 0 f l.

(** [nn.Dropout(p)]: the identity in evaluation mode; in training mode an
    element is kept, and scaled by [1 / (1 - p)], when its uniform draw is
    below [1 - p], and zeroed otherwise. *)
Definition dropout (training : bool) (p : R) (noise : nat -> nat -> nat -> R)
  (x : tensor3) : tensor3 :=
  if training then
    mapi (fun b => mapi (fun t => mapi (fun h v =>
      if Rlt_dec (noise b t h) (1 - p) then v / (1 - p) else 0))) x
  else x.

(** [nn.Embedding]: a row of the table, or an [IndexError]. *)
Definition embedding (num_embeddings : nat) (weight : nat -> tensor1) (i : Z)
  : result tensor1 :=
  if ((0 <=? i) && (i <? Z.of_nat num_embeddings))%Z
  then Ok (weight (Z.to_nat i))
  else Raise (IndexError "index out of range in self").

(** [t[i]] on the first axis of a tensor. *)
Definition tensor_index {A : Type} (t : list A) (i : Z) : result A :=
  let j := if (i <? 0)%Z then (Z.of_nat (length t) + i)%Z else i in
  if (j <? 0)%Z then Raise (IndexError "index is out of bounds")
  else match nth_error t (Z.to_nat j) with
       | Some row => Ok row
       | None => Raise (IndexError "index is out of bounds")
       end.

(** [random.choice]: the element at [randbelow(len(seq))]. *)
Definition choice {A : Type} (draw : nat) (seq : list A) : result A :=
  match nth_error seq (draw mod length seq) with
  | Some x => Ok x
  | None => Raise (IndexError "Cannot choose from an empty sequence")
  end.

(** [attention_mask.bool()]. *)
Definition mask_bool (attention_mask : option tensor2Z) : result (list (list bool)) :=
  match attention_mask with
  | Some m => Ok (map (map (fun z => negb (z =? 0)%Z)) m)
  | None => Raise (AttributeError "'NoneType' object has no attribute 'bool'")
  end.

(** [nn.MSELoss()] on two 1-D tensors. *)
Definition MSELoss (input : tensor1) (target : list Z) : result R :=
  sq <- broadcast2 (fun x y => Ok ((x - IZR y) ^ 2)) input target ;;
  tensor_mean sq.

(** [nn.CrossEntropyLoss()]: the mean, over the targets other than the
    ignored index -100, of minus the log-probability of the target. *)
Definition CrossEntropyLoss (input : tensor2) (target : list Z) : result R :=
  if negb (Nat.eqb (length input) (length target))
  then Raise (RuntimeError "Expected input batch_size to match target batch_size")
  else
    picked <- mapM (fun p =>
                 if (snd p =? -100)%Z then Ok []
                 else if (snd p <? 0)%Z then Raise (IndexError "Target is out of bounds")
                 else match nth_error (Loss.log_softmax (fst p)) (Z.to_nat (snd p)) with
                      | Some v => Ok [- v]
                      | None => Raise (IndexError "Target is out of bounds")
                      end) (combine input target) ;;
    tensor_mean (concat picked).

Definition embed_all_intent (self : DIETClassifier) (num_intent : nat) : tensor2 :=
  let all_intent := seq 0 (num_intents self) in
  map (fun i => intents_label_dense self (intents_label_embed self i)) all_intent.

Definition logit_intent (embed_out_intents : tensor3) (embed_all_intent : tensor2)
  : result tensor2 :=
  cosin_list <- mapM (fun out_intent => Loss.sim out_intent embed_all_intent)
                     embed_out_intents ;;
  stack cosin_list.

(** The candidates of one example and the draw among them. *)
Definition neg_candidates (num_intent : nat) (sample : Z) : list Z :=
  let all_label := map Z.of_nat (seq 0 num_intent) in
  filter (fun label => negb (label =? sample)%Z) all_label.

Definition neg_choice (draw : nat) (num_intent : nat) (sample : Z) : result Z :=
  choice draw (neg_candidates num_intent sample).

Definition _neg_sample (draws : nat -> nat) (num_intent : nat)
  (intent_labels : list Z) (embed_all_intent : tensor2) : result tensor2 :=
  neg_label <- mapMi (fun i sample =>
                        label <- neg_choice (draws i) num_intent sample ;;
                        tensor_index embed_all_intent label) intent_labels ;;
  stack neg_label.

(** The entity loss of [forward]. *)
Definition entities_loss_of (self : DIETClassifier) (args : forward_args)
  (entities_embed : tensor3) : result (option R) :=
  match entities_labels args with
  | Some labels =>
      mask <- mask_bool (attention_mask (bert_inputs args)) ;;
      Ok (Some (- crf self entities_embed labels mask))
  | None => Ok None
  end.

(** The intent branch of [forward]: the logits and the intent loss. *)
Definition intent_branch (self : DIETClassifier) (args : forward_args)
  (rng : randomness) (pooled_output : tensor3)
  : result (intent_logits_t * option R) :=
  if use_dot_product self then
    let intent_output_embed := map (map (intents_output_embed self)) pooled_output in
    let all_intent := embed_all_intent self (num_intents self) in
    intent_logits <- logit_intent intent_output_embed all_intent ;;
    intent_loss <-
      match intent_labels args with
      | Some labels =>
          intent_labels_embed <-
            mapM (embedding (num_intents self + 2) (intents_label_embed self)) labels ;;
          let intent_labels_embed := map (intents_label_dense self) intent_labels_embed in
          embed_neg_label <-
            _neg_sample (neg_draws rng) (num_intents self) labels all_intent ;;
          l <- Loss.forward Loss.default
                 (concat intent_output_embed) (* [.view(-1, embedding_dimension)] *)
                 intent_labels_embed embed_neg_label ;;
          Ok (Some l)
      | None => Ok None
      end ;;
    Ok (SimilarityLogits intent_logits, intent_loss)
  else
    let intent_logits := map (map (intents_classifier self)) pooled_output in
    intent_loss <-
      match intent_labels args with
      | Some labels =>
          if Nat.eqb (num_intents self) 1 then
            l <- MSELoss (concat (concat intent_logits)) labels ;; Ok (Some l)
          else
            l <- CrossEntropyLoss (concat intent_logits) labels ;; Ok (Some l)
      | None => Ok None
      end ;;
    Ok (ClassifierLogits intent_logits, intent_loss).

(** The joint loss of [forward]. *)
Definition joint_loss (args : forward_args) (entities_loss intent_loss : option R)
  : result (option R) :=
  match entities_labels args, intent_labels args with
  | Some _, Some _ =>
      match entities_loss, intent_loss with
      | Some e, Some i => Ok (Some (e * 0.5 + i * 0.5))
      | _, _ => Raise (TypeError "unsupported operand type(s) for *: 'NoneType' and 'float'")
      end
  | _, _ => Ok None
  end.

Definition is_not_None {A : Type} (o : option A) : bool :=
  match o with Some _ => true | None => false end.

(** The first lines of [forward]: the value of [return_dict] handed to the
    encoder, what the encoder returns, and the two slices of [outputs[0]]
    after dropout. *)
Definition resolved_return_dict (self : DIETClassifier) (args : forward_args) : bool :=
  match return_dict args with
  | Some b => b
  | None => use_return_dict self
  end.

Definition outputs_of (self : DIETClassifier) (args : forward_args) : bert_outputs :=
  if resolved_return_dict self args
  then ModelOutput (bert self (bert_inputs args))
  else PlainTuple (bert self (bert_inputs args)).

Definition sequence_output (self : DIETClassifier) (args : forward_args)
  (rng : randomness) : tensor3 :=
  let sequence_output :=
    map (skipn 1) (last_hidden_state (outputs_data (outputs_of self args))) in
  dropout (training self) (hidden_dropout_prob self) (sequence_noise rng) sequence_output.

Definition pooled_output (self : DIETClassifier) (args : forward_args)
  (rng : randomness) : tensor3 :=
  let pooled_output :=
    map (firstn 1) (last_hidden_state (outputs_data (outputs_of self args))) in
  dropout (training self) (hidden_dropout_prob self) (pooled_noise rng) pooled_output.

Definition entities_embed (self : DIETClassifier) (args : forward_args)
  (rng : randomness) : tensor3 :=
  map (map (entities_dense_embed self)) (sequence_output self args rng).

Definition forward (self : DIETClassifier) (args : forward_args) (rng : randomness)
  : result forward_output :=
  let return_dict := resolved_return_dict self args in
  let outputs := outputs_of self args in
  let entities_embed := entities_embed self args rng in
  entities_loss <- entities_loss_of self args entities_embed ;;
  let entities_logits := crf_viterbi_tags self entities_embed in
  let entities_logits := map fst entities_logits in
  branch <- intent_branch self args rng (pooled_output self args rng) ;;
  let intent_logits := fst branch in
  let intent_loss := snd branch in
  loss <- joint_loss args entities_loss intent_loss ;;
  let return_dict := if training self then true else return_dict in
  if negb return_dict then
    let output := LossItem loss :: map ExtraItem (rest (outputs_data outputs)) in
    Ok (TupleOutput
          (if is_not_None entities_loss && is_not_None intent_loss
           then LossItem loss :: output
           else output))
  else
    hs <- getattr outputs "'tuple' object has no attribute 'hidden_states'" hidden_states ;;
    att <- getattr outputs "'tuple' object has no attribute 'attentions'" attentions ;;
    Ok (DictOutput {| entities_loss := entities_loss;
                      intent_loss := intent_loss;
                      loss := loss;
                      logits := (entities_logits, intent_logits);
                      dict_hidden_states := hs;
                      dict_attentions := att |}).

(** The joint loss a caller reads off the output: the [loss] entry of the
    dictionary, the first component of the tuple. *)
Definition output_loss (out : forward_output) : option R :=
  match out with
  | DictOutput d => loss d
  | TupleOutput (LossItem l :: _) => l
  | TupleOutput _ => None
  end.

End Classifier.

(** ** A small instance

    One example of two tokens, hidden size and embedding dimension 1, all
    linear layers the identity, intent 0 embedded as [1] and the others as
    [-1]. *)

Module Fixture.
Import Classifier.

Definition encoder (a : bert_args) : encoder_output :=
  {| last_hidden_state := [[[1]; [1]]];
     rest := [];
     hidden_states := None;
     attentions := None |}.

Definition model (training : bool) (p : R) (n : nat) : DIETClassifier :=
  {| embedding_dimension := 1;
     use_dot_product := true;
     num_intents := n;
     use_return_dict := true;
     hidden_dropout_prob := p;
     training := training;
     bert := encoder;
     entities_dense_embed := fun v => v;
     crf := fun _ _ _ => -1;
     crf_viterbi_tags := map (fun _ => ([0%nat], 0));
     intents_output_embed := fun v => v;
     intents_label_embed := fun i => match i with O => [1] | S _ => [-1] end;
     intents_label_dense := fun v => v;
     intents_classifier := fun v => v |}.

Definition tokens : bert_args :=
  {| input_ids := Some [[101; 2054]%Z];
     attention_mask := Some [[1; 1]%Z];
     token_type_ids := None;
     position_ids := None;
     head_mask := None;
     inputs_embeds := None;
     output_attentions := None;
     output_hidden_states := None |}.

(** A training call: both label sets are supplied. *)
Definition labelled (return_dict : option bool) : forward_args :=
  {| bert_inputs := tokens;
     intent_labels := Some [0%Z];
     entities_labels := Some [[0%Z]];
     return_dict := return_dict |}.

(** An inference call: no labels. *)
Definition unlabelled (return_dict : option bool) : forward_args :=
  {| bert_inputs := tokens;
     intent_labels := None;
     entities_labels := None;
     return_dict := return_dict |}.

(** Random numbers: every uniform draw is [u], every draw of
    [random.choice] is [d]. *)
Definition constant_rng (u : R) (d : nat) : randomness :=
  {| sequence_noise := fun _ _ _ => u;
     pooled_noise := fun _ _ _ => u;
     neg_draws := fun _ => d |}.

(** What [forward] returns on [labelled], as a dictionary and as a tuple,
    and on [unlabelled] when the pooled vector gives the logits [lg]. *)
Definition labelled_dict : output_dict :=
  {| entities_loss := Some 1;
     intent_loss := Some 0;
     loss := Some (1 * 0.5 + 0 * 0.5);
     logits := ([[0%nat]], SimilarityLogits [[1; -1]]);
     dict_hidden_states := None;
     dict_attentions := None |}.

Definition labelled_tuple : list tuple_item :=
  [LossItem (Some (1 * 0.5 + 0 * 0.5)); LossItem (Some (1 * 0.5 + 0 * 0.5))].

Definition unlabelled_dict (lg : tensor2) : output_dict :=
  {| entities_loss := None;
     intent_loss := None;
     loss := None;
     logits := ([[0%nat]], SimilarityLogits lg);
     dict_hidden_states := None;
     dict_attentions := None |}.

End Fixture.

(** ** Auxiliary notions of the statements *)

(** The dot product of two vectors of the same length. *)
Definition dot (a b : tensor1) : R :=
  tensor_sum (map (fun p => fst p * snd p) (combine a b)).

(** The same call of [forward] with [intent_labels] and [entities_labels]
    left out. *)
Definition without_labels (args : Classifier.forward_args) : Classifier.forward_args :=
  {| Classifier.bert_inputs := Classifier.bert_inputs args;
     Classifier.intent_labels := None;
     Classifier.entities_labels := None;
     Classifier.return_dict := Classifier.return_dict args |}.

(** ** Properties *)

Ltac rmax_tac :=
  repeat match goal with
         | |- context [Rmax ?a ?b] =>
             first [ rewrite (Rmax_left a b) by lra
                   | rewrite (Rmax_right a b) by lra ]
         end.

(** *** The error monad and the tensor primitives *)

Lemma mapM_Ok {A B : Type} (g : A -> B) (l : list A) :
  mapM (fun a => Ok (g a)) l = Ok (map g l).
Proof.
  induction l as [|a l IH]; cbn; [reflexivity|].
  rewrite IH. reflexivity.
Qed.

Lemma mapM_ext {A B : Type} (f g : A -> result B) (l : list A) :
  (forall a, In a l -> f a = g a) -> mapM f l = mapM g l.
Proof.
  induction l as [|a l IH]; intros H; cbn; [reflexivity|].
  rewrite (H a) by (left; reflexivity).
  rewrite IH by (intros; apply H; right; assumption).
  reflexivity.
Qed.

Lemma broadcast2_same_length {A B C : Type} (f : A -> B -> result C) xs ys :
  length xs = length ys ->
  broadcast2 f xs ys = mapM (fun p => f (fst p) (snd p)) (combine xs ys).
Proof.
  intros H. unfold broadcast2. rewrite H, Nat.eqb_refl. reflexivity.
Qed.

Lemma max_from_lower (t : tensor1) : forall m, m <= max_from m t.
Proof.
  induction t as [|x t IH]; intros m; cbn; [lra|].
  eapply Rle_trans; [apply (Rmax_l m x) | apply IH].
Qed.

Lemma max_from_upper (t : tensor1) :
  forall m x, In x t -> x <= max_from m t.
Proof.
  induction t as [|y t IH]; intros m x Hin; [contradiction|].
  cbn. destruct Hin as [->|Hin].
  - eapply Rle_trans; [apply (Rmax_r m x) | apply max_from_lower].
  - apply IH; assumption.
Qed.

(** A monotone map commutes with the running maximum. *)
Lemma max_from_map (f : R -> R) (t : tensor1) :
  (forall a b, f (Rmax a b) = Rmax (f a) (f b)) ->
  forall m, max_from (f m) (map f t) = f (max_from m t).
Proof.
  intros Hf. induction t as [|x t IH]; intros m; cbn; [reflexivity|].
  rewrite <- Hf. apply IH.
Qed.

Lemma hinge_Rmax (c a b : R) :
  Rmax 0 (c + Rmax a b) = Rmax (Rmax 0 (c + a)) (Rmax 0 (c + b)).
Proof.
  unfold Rmax. repeat destruct Rle_dec; lra.
Qed.

Lemma tensor_sum_nonneg (t : tensor1) :
  Forall (fun x => 0 <= x) t -> 0 <= tensor_sum t.
Proof.
  induction 1 as [|x t Hx _ IH]; cbn; lra.
Qed.

Lemma tensor_sum_pos (t : tensor1) :
  Forall (fun x => 0 <= x) t -> Exists (fun x => 0 < x) t -> 0 < tensor_sum t.
Proof.
  intros Hall Hex. induction Hex as [x t Hx | x t Hex IH]; cbn.
  - inversion Hall; subst. pose proof (tensor_sum_nonneg t H2). lra.
  - inversion Hall; subst. specialize (IH H2). lra.
Qed.

Lemma tensor_sum_zero (t : tensor1) :
  Forall (fun x => x = 0) t -> tensor_sum t = 0.
Proof.
  induction 1 as [|x t Hx _ IH]; cbn; lra.
Qed.

Lemma INR_length_pos {A : Type} (l : list A) : l <> [] -> 0 < INR (length l).
Proof.
  destruct l; [congruence|]. intros _. apply lt_0_INR. cbn. lia.
Qed.

(** *** The margin loss *)

Lemma neg_term_nonneg self sim_neg n :
  Loss.neg_term self sim_neg = Ok n -> 0 <= n.
Proof.
  unfold Loss.neg_term. destruct (Loss.use_max_sim_neg self).
  - destruct sim_neg as [|x t]; cbn; [discriminate|].
    intros [= <-]. apply Rmax_l.
  - destruct sim_neg as [|x t]; cbn; [discriminate|].
    intros [= <-].
    eapply Rle_trans; [apply (Rmax_l 0 (Loss.mu_neg self + x)) | apply max_from_lower].
Qed.

Lemma neg_term_defined self sim_neg :
  sim_neg <> [] -> exists n, Loss.neg_term self sim_neg = Ok n.
Proof.
  unfold Loss.neg_term. destruct sim_neg as [|x t]; [congruence|]. intros _.
  destruct (Loss.use_max_sim_neg self); cbn; eauto.
Qed.

(** In both modes the negative term is the hinge of the global maximum. *)
Lemma neg_term_of_max self sim_neg m :
  tensor_max sim_neg = Ok m ->
  Loss.neg_term self sim_neg = Ok (Rmax 0 (Loss.mu_neg self + m)).
Proof.
  unfold Loss.neg_term. destruct sim_neg as [|x t]; cbn; [discriminate|].
  intros [= <-]. destruct (Loss.use_max_sim_neg self); cbn; [reflexivity|].
  f_equal.
  apply (max_from_map (fun s => Rmax 0 (Loss.mu_neg self + s))).
  intros a b. apply hinge_Rmax.
Qed.

Lemma loss_margin_eq self sim_pos sim_neg n :
  Loss.neg_term self sim_neg = Ok n ->
  sim_pos <> [] ->
  Loss._loss_margin self sim_pos sim_neg =
  Ok (tensor_sum (map (fun l => l + n) (Loss.pos_term self sim_pos))
      / INR (length sim_pos)).
Proof.
  intros Hn Hne. unfold Loss._loss_margin. rewrite Hn. cbn [bind].
  unfold Loss.pos_term. rewrite map_map.
  destruct sim_pos as [|s t]; [congruence|].
  cbn [map tensor_mean]. rewrite !length_cons, !length_map. reflexivity.
Qed.

Lemma loss_margin_inv self sim_pos sim_neg v :
  Loss._loss_margin self sim_pos sim_neg = Ok v ->
  exists n, Loss.neg_term self sim_neg = Ok n /\ sim_pos <> [] /\
    v = tensor_sum (map (fun l => l + n) (Loss.pos_term self sim_pos))
        / INR (length sim_pos).
Proof.
  intros H.
  destruct (Loss.neg_term self sim_neg) as [n|e] eqn:Hn.
  - destruct sim_pos as [|s t].
    + unfold Loss._loss_margin in H. rewrite Hn in H. discriminate.
    + exists n. split; [reflexivity|]. split; [congruence|].
      rewrite (loss_margin_eq self (s :: t) sim_neg n Hn) in H by congruence.
      congruence.
  - unfold Loss._loss_margin in H. rewrite Hn in H. discriminate.
Qed.

Lemma shifted_pos_term_nonneg self sim_pos n :
  0 <= n ->
  Forall (fun x => 0 <= x) (map (fun l => l + n) (Loss.pos_term self sim_pos)).
Proof.
  intros Hn. unfold Loss.pos_term. rewrite map_map. apply Forall_map.
  apply Forall_forall. intros s _.
  pose proof (Rmax_l 0 (Loss.mu_pos self - s)). lra.
Qed.

Lemma max_from_In (t : tensor1) : forall m, In (max_from m t) (m :: t).
Proof.
  induction t as [|x t IH]; intros m; cbn [max_from]; [left; reflexivity|].
  destruct (IH (Rmax m x)) as [H | H].
  - unfold Rmax in H at 1. destruct (Rle_dec m x).
    + right. left. exact H.
    + left. exact H.
  - right. right. exact H.
Qed.

(** [torch.max] returns the global maximum: an element of the tensor that
    no element exceeds. *)
Lemma tensor_max_global (t : tensor1) (m : R) :
  tensor_max t = Ok m -> In m t /\ Forall (fun s => s <= m) t.
Proof.
  destruct t as [|x t]; cbn [tensor_max]; [discriminate|]. intros [= <-]. split.
  - apply (max_from_In t x).
  - constructor; [apply max_from_lower|].
    apply Forall_forall. intros s Hs. apply max_from_upper. exact Hs.
Qed.

(** C1: in the max-sim-neg mode the negative term of the margin loss is
    the hinge [max(0, mu_neg + m)] of the single global maximum [m] of the
    negative similarities, the same number is added to the positive hinge
    of every example, and the loss is the batch mean.  With
    [mu_pos = 0.8], [mu_neg = -0.2], positive similarities [0.9; 0.3] and
    negative similarities [-0.5; 0.1]: positive terms [0; 0.5], global
    maximum 0.1, negative term 0, per-example losses [0; 0.5], loss 0.25.
    On [0.9; 0.9] and [-0.5; 0.7] the negative 0.7 of the second example
    is charged to both examples: negative term 0.5, loss 0.5. *)
Theorem margin_loss_scenario :
  (forall (self : Loss.SingleLabelDotProductLoss) (sim_neg : tensor1) (m : R),
     Loss.use_max_sim_neg self = true ->
     tensor_max sim_neg = Ok m ->
     In m sim_neg /\ Forall (fun s => s <= m) sim_neg /\
     Loss.neg_term self sim_neg = Ok (Rmax 0 (Loss.mu_neg self + m))) /\
  (forall (self : Loss.SingleLabelDotProductLoss) (sim_pos sim_neg : tensor1) (neg : R),
     Loss.neg_term self sim_neg = Ok neg ->
     sim_pos <> [] ->
     Loss._loss_margin self sim_pos sim_neg =
     Ok (tensor_sum (map (fun s => Rmax 0 (Loss.mu_pos self - s) + neg) sim_pos)
         / INR (length sim_pos))) /\
  Loss.pos_term Loss.default [0.9; 0.3] = [0; 0.5] /\
  tensor_max [-0.5; 0.1] = Ok 0.1 /\
  Loss.neg_term Loss.default [-0.5; 0.1] = Ok 0 /\
  map (fun s => Rmax 0 (Loss.mu_pos Loss.default - s) + 0) [0.9; 0.3] = [0; 0.5] /\
  Loss._loss_margin Loss.default [0.9; 0.3] [-0.5; 0.1] = Ok 0.25 /\
  Loss.neg_term Loss.default [-0.5; 0.7] = Ok 0.5 /\
  Loss._loss_margin Loss.default [0.9; 0.9] [-0.5; 0.7] = Ok 0.5.
Proof.
  assert (Hgen : forall self sim_pos sim_neg neg,
             Loss.neg_term self sim_neg = Ok neg -> sim_pos <> [] ->
             Loss._loss_margin self sim_pos sim_neg =
             Ok (tensor_sum (map (fun s => Rmax 0 (Loss.mu_pos self - s) + neg) sim_pos)
                 / INR (length sim_pos))).
  { intros self sim_pos sim_neg neg Hn Hne.
    rewrite (loss_margin_eq self sim_pos sim_neg neg Hn Hne).
    unfold Loss.pos_term. rewrite map_map. reflexivity. }
  assert (Hmax : tensor_max [-0.5; 0.1] = Ok 0.1).
  { unfold tensor_max, max_from. f_equal. rmax_tac. reflexivity. }
  assert (Hmax' : tensor_max [-0.5; 0.7] = Ok 0.7).
  { unfold tensor_max, max_from. f_equal. rmax_tac. reflexivity. }
  assert (Hneg : Loss.neg_term Loss.default [-0.5; 0.1] = Ok 0).
  { rewrite (neg_term_of_max Loss.default _ _ Hmax). unfold Loss.default.
    cbn [Loss.mu_neg]. f_equal. rmax_tac. reflexivity. }
  assert (Hneg' : Loss.neg_term Loss.default [-0.5; 0.7] = Ok 0.5).
  { rewrite (neg_term_of_max Loss.default _ _ Hmax'). unfold Loss.default.
    cbn [Loss.mu_neg]. f_equal. rmax_tac. lra. }
  split; [|split; [exact Hgen|]].
  - intros self sim_neg m Hmode Hm.
    destruct (tensor_max_global sim_neg m Hm) as [Hin Hall].
    split; [exact Hin|]. split; [exact Hall|].
    apply neg_term_of_max. exact Hm.
  - split.
    { unfold Loss.pos_term, Loss.default. cbn [map Loss.mu_pos].
      rmax_tac. repeat f_equal. lra. }
    split; [exact Hmax|]. split; [exact Hneg|]. split.
    { unfold Loss.default. cbn [map Loss.mu_pos]. rmax_tac. repeat f_equal; lra. }
    split.
    { rewrite (Hgen Loss.default [0.9; 0.3] [-0.5; 0.1] 0 Hneg) by discriminate.
      unfold Loss.default. cbn [map Loss.mu_pos tensor_sum length INR].
      rmax_tac. f_equal. lra. }
    split; [exact Hneg'|].
    rewrite (Hgen Loss.default [0.9; 0.9] [-0.5; 0.7] 0.5 Hneg') by discriminate.
    unfold Loss.default. cbn [map Loss.mu_pos tensor_sum length INR].
    rmax_tac. f_equal. lra.
Qed.

Lemma margin_loss_scenario_witness :
  Loss.neg_term Loss.default [0.3; -0.1; 0.2] = Ok (Rmax 0 (-0.2 + 0.3)) /\
  Loss._loss_margin Loss.default [0.5; 1] [0.3; -0.1; 0.2] =
  Ok (tensor_sum (map (fun s => Rmax 0 (0.8 - s) + Rmax 0 (-0.2 + 0.3)) [0.5; 1])
      / INR 2).
Proof.
  destruct margin_loss_scenario as (Hneg & Hloss & _).
  assert (Hmax : tensor_max [0.3; -0.1; 0.2] = Ok 0.3).
  { unfold tensor_max, max_from. f_equal. rmax_tac. reflexivity. }
  destruct (Hneg Loss.default [0.3; -0.1; 0.2] 0.3 eq_refl Hmax) as (_ & _ & Hn).
  split; [exact Hn|].
  apply (Hloss Loss.default [0.5; 1] [0.3; -0.1; 0.2] _ Hn). discriminate.
Defined.

(** C6: the margin loss is non-negative whenever it has a value, and it
    has one on non-empty similarities; it is 0 when every positive
    similarity equals [mu_pos] and the maximum negative similarity equals
    [- mu_neg]; it is strictly positive when some positive similarity is
    below [mu_pos]. *)
Theorem margin_loss_sign (self : Loss.SingleLabelDotProductLoss)
  (sim_pos sim_neg : tensor1) :
  (forall v, Loss._loss_margin self sim_pos sim_neg = Ok v -> 0 <= v) /\
  (sim_pos <> [] -> sim_neg <> [] ->
   exists v, Loss._loss_margin self sim_pos sim_neg = Ok v) /\
  (sim_pos <> [] ->
   Forall (fun s => s = Loss.mu_pos self) sim_pos ->
   tensor_max sim_neg = Ok (- Loss.mu_neg self) ->
   Loss._loss_margin self sim_pos sim_neg = Ok 0) /\
  (forall v, Exists (fun s => s < Loss.mu_pos self) sim_pos ->
   Loss._loss_margin self sim_pos sim_neg = Ok v -> 0 < v).
Proof.
  repeat split.
  - intros v H. apply loss_margin_inv in H as (n & Hn & Hne & ->).
    apply neg_term_nonneg in Hn.
    apply Rmult_le_pos.
    + apply tensor_sum_nonneg, shifted_pos_term_nonneg; assumption.
    + left. apply Rinv_0_lt_compat, INR_length_pos; assumption.
  - intros Hp Hn. destruct (neg_term_defined self sim_neg Hn) as [n Hnt].
    eexists. apply loss_margin_eq; eassumption.
  - intros Hne Hall Hmax.
    pose proof (neg_term_of_max self sim_neg _ Hmax) as Hn.
    replace (Loss.mu_neg self + - Loss.mu_neg self) with 0 in Hn by lra.
    rewrite Rmax_left in Hn by lra.
    rewrite (loss_margin_eq self sim_pos sim_neg 0 Hn Hne). f_equal.
    rewrite tensor_sum_zero; [unfold Rdiv; ring|].
    unfold Loss.pos_term. rewrite map_map. apply Forall_map.
    eapply Forall_impl; [|exact Hall]. cbn. intros s ->.
    replace (Loss.mu_pos self - Loss.mu_pos self) with 0 by lra.
    rewrite Rmax_left; lra.
  - intros v Hex H. apply loss_margin_inv in H as (n & Hn & Hne & ->).
    apply neg_term_nonneg in Hn.
    apply Rmult_lt_0_compat.
    + apply tensor_sum_pos; [apply shifted_pos_term_nonneg; assumption|].
      unfold Loss.pos_term. rewrite map_map. apply Exists_map.
      eapply Exists_impl; [|exact Hex]. cbn. intros s Hs.
      pose proof (Rmax_r 0 (Loss.mu_pos self - s)). lra.
    + apply Rinv_0_lt_compat, INR_length_pos; assumption.
Qed.

Lemma margin_loss_sign_witness :
  Loss._loss_margin Loss.default [0.8; 0.8] [-0.5; 0.2] = Ok 0 /\
  (exists v, Loss._loss_margin Loss.default [0.9; 0.3] [-0.5; 0.1] = Ok v /\ 0 < v).
Proof.
  split.
  - apply (margin_loss_sign Loss.default [0.8; 0.8] [-0.5; 0.2]).
    + discriminate.
    + repeat constructor.
    + cbn. f_equal. rewrite Rmax_right by lra. lra.
  - destruct (margin_loss_sign Loss.default [0.9; 0.3] [-0.5; 0.1])
      as (_ & Hdef & _ & Hpos).
    destruct Hdef as [v Hv]; [discriminate | discriminate |].
    exists v. split; [exact Hv|].
    apply Hpos; [|exact Hv].
    apply Exists_cons_tl, Exists_cons_hd. cbn. lra.
Defined.

(** *** The similarity *)

Lemma eps_pos : 0 < Loss.eps.
Proof. unfold Loss.eps. apply Rinv_0_lt_compat. lra. Qed.

Lemma floor_pos (x : R) : 0 < Rmax x Loss.eps.
Proof.
  eapply Rlt_le_trans; [apply eps_pos | apply Rmax_r].
Qed.

Lemma tensor_sum_scaled (n m : R) (l : list (R * R)) :
  tensor_sum (map (fun p => fst p / n * (snd p / m)) l) =
  tensor_sum (map (fun p => fst p * snd p) l) * (/ n * / m).
Proof.
  induction l as [|[x y] l IH]; cbn; [ring|].
  rewrite IH. unfold Rdiv. ring.
Qed.

Lemma combine_map_both {A B C D : Type} (f : A -> C) (g : B -> D) l1 l2 :
  combine (map f l1) (map g l2) = map (fun p => (f (fst p), g (snd p))) (combine l1 l2).
Proof.
  revert l2. induction l1 as [|a l1 IH]; intros [|b l2]; cbn; try reflexivity.
  rewrite IH. reflexivity.
Qed.

(** On vectors of the same length [sim] is the dot product over the
    product of the floored norms. *)
Lemma sim_vec_dot (a b : tensor1) :
  length a = length b ->
  Loss.sim_vec a b =
  Ok (dot a b * (/ Rmax (Loss.norm2 a) Loss.eps * / Rmax (Loss.norm2 b) Loss.eps)).
Proof.
  intros Hlen. unfold Loss.sim_vec, Loss.normalize.
  rewrite broadcast2_same_length by (rewrite !length_map; exact Hlen).
  rewrite (mapM_Ok (fun p => fst p * snd p)). cbn [bind]. f_equal.
  rewrite combine_map_both, map_map. cbn [fst snd].
  apply tensor_sum_scaled.
Qed.

Lemma sum_squares_nonneg (a : tensor1) : 0 <= tensor_sum (map (fun x => x * x) a).
Proof.
  apply tensor_sum_nonneg, Forall_map, Forall_forall. intros x _. nra.
Qed.

Lemma dot_self (a : tensor1) : dot a a = Loss.norm2 a * Loss.norm2 a.
Proof.
  unfold Loss.norm2. rewrite sqrt_sqrt by apply sum_squares_nonneg.
  unfold dot. induction a as [|x a IH]; cbn; [reflexivity|].
  rewrite IH. reflexivity.
Qed.

Lemma dot_opp_r (a : tensor1) : dot a (map Ropp a) = - dot a a.
Proof.
  unfold dot. induction a as [|x a IH]; cbn; [ring|].
  rewrite IH. ring.
Qed.

Lemma norm2_opp (a : tensor1) : Loss.norm2 (map Ropp a) = Loss.norm2 a.
Proof.
  unfold Loss.norm2. f_equal. rewrite map_map.
  f_equal. apply map_ext. intros x. ring.
Qed.

(** C7, as the code has it: [sim] is 1 on two equal vectors and -1 on two
    opposite vectors whose norm reaches the floor [eps] of the
    normalization, and 0 on two orthogonal vectors. *)
Theorem sim_equal_orthogonal_opposite (a b : tensor1) :
  (Loss.eps <= Loss.norm2 a -> Loss.sim_vec a a = Ok 1) /\
  (length a = length b -> dot a b = 0 -> Loss.sim_vec a b = Ok 0) /\
  (Loss.eps <= Loss.norm2 a -> Loss.sim_vec a (map Ropp a) = Ok (-1)).
Proof.
  repeat split.
  - intros Hn. rewrite sim_vec_dot by reflexivity. f_equal.
    rewrite dot_self, Rmax_left by exact Hn.
    pose proof eps_pos. field. lra.
  - intros Hlen Hdot. rewrite sim_vec_dot by exact Hlen. f_equal.
    rewrite Hdot. ring.
  - intros Hn. rewrite sim_vec_dot by (rewrite length_map; reflexivity). f_equal.
    rewrite dot_opp_r, norm2_opp, dot_self, Rmax_left by exact Hn.
    pose proof eps_pos. field. lra.
Qed.

Lemma norm2_axis : Loss.norm2 [1; 0; 0; 0] = 1.
Proof.
  unfold Loss.norm2. cbn [map tensor_sum].
  replace (1 * 1 + (0 * 0 + (0 * 0 + (0 * 0 + 0)))) with 1 by ring.
  apply sqrt_1.
Qed.

Lemma eps_le_1 : Loss.eps <= 1.
Proof.
  unfold Loss.eps.
  apply Rmult_le_reg_l with 1000000000000; [lra|].
  rewrite Rinv_r; lra.
Qed.

Lemma sim_equal_orthogonal_opposite_witness :
  Loss.sim_vec [1; 0; 0; 0] [1; 0; 0; 0] = Ok 1 /\
  Loss.sim_vec [1; 0; 0; 0] [0; 1; 0; 0] = Ok 0 /\
  Loss.sim_vec [1; 0; 0; 0] (map Ropp [1; 0; 0; 0]) = Ok (-1).
Proof.
  pose proof (sim_equal_orthogonal_opposite [1; 0; 0; 0] [0; 1; 0; 0])
    as (Heq & Horth & Hopp).
  repeat split.
  - apply Heq. rewrite norm2_axis. apply eps_le_1.
  - apply Horth; [reflexivity|]. unfold dot. cbn. ring.
  - apply Hopp. rewrite norm2_axis. apply eps_le_1.
Defined.

(** The claim of C7 fails on the zero vector, which is equal to itself and
    has similarity 0. *)
Lemma sim_zero_vector_not_one :
  Loss.sim_vec [0; 0; 0; 0] [0; 0; 0; 0] = Ok 0 /\
  ~ (forall a : tensor1, Loss.sim_vec a a = Ok 1).
Proof.
  assert (H0 : Loss.sim_vec [0; 0; 0; 0] [0; 0; 0; 0] = Ok 0).
  { rewrite sim_vec_dot by reflexivity. f_equal. unfold dot. cbn. ring. }
  split; [exact H0|].
  intros H. specialize (H [0; 0; 0; 0]). rewrite H0 in H.
  injection H as H. lra.
Qed.

(** *** The negative sampler *)

Lemma mapMi_from_inv {A B : Type} (f : nat -> A -> result B) (l : list A) :
  forall k out, mapMi_from k f l = Ok out ->
  length out = length l /\
  forall i a, nth_error l i = Some a ->
    exists b, f (k + i)%nat a = Ok b /\ nth_error out i = Some b.
Proof.
  induction l as [|a l IH]; intros k out H; cbn in H.
  - injection H as <-. split; [reflexivity|]. intros [|i] x Hx; discriminate.
  - destruct (f k a) as [b|e] eqn:Hf; [|discriminate]. cbn in H.
    destruct (mapMi_from (S k) f l) as [bs|e] eqn:Hrec; [|discriminate].
    injection H as <-. destruct (IH _ _ Hrec) as [Hlen Hnth].
    split; [cbn; congruence|].
    intros [|i] x Hx; cbn in Hx.
    + injection Hx as <-. exists b. rewrite Nat.add_0_r. split; [assumption|reflexivity].
    + destruct (Hnth i x Hx) as (b' & Hb' & Hout).
      exists b'. rewrite Nat.add_succ_r. split; assumption.
Qed.

Lemma mapMi_from_defined {A B : Type} (f : nat -> A -> result B) (l : list A) :
  forall k,
  (forall i a, nth_error l i = Some a -> exists b, f (k + i)%nat a = Ok b) ->
  exists out, mapMi_from k f l = Ok out.
Proof.
  induction l as [|a l IH]; intros k H; cbn; [eauto|].
  destruct (H 0%nat a eq_refl) as [b Hb]. rewrite Nat.add_0_r in Hb. rewrite Hb. cbn.
  destruct (IH (S k)) as [bs Hbs].
  - intros i x Hx. destruct (H (S i) x Hx) as [b' Hb'].
    exists b'. rewrite Nat.add_succ_r in Hb'. exact Hb'.
  - rewrite Hbs. cbn. eauto.
Qed.

Lemma choice_In {A : Type} (draw : nat) (seq : list A) (x : A) :
  Classifier.choice draw seq = Ok x -> In x seq.
Proof.
  unfold Classifier.choice.
  destruct (nth_error seq (draw mod length seq)) as [y|] eqn:H; [|discriminate].
  intros [= <-]. eapply nth_error_In; eassumption.
Qed.

Lemma choice_defined {A : Type} (draw : nat) (seq : list A) :
  seq <> [] -> exists x, Classifier.choice draw seq = Ok x.
Proof.
  intros Hne. unfold Classifier.choice.
  destruct (nth_error seq (draw mod length seq)) as [y|] eqn:H; [eauto|].
  apply nth_error_None in H.
  assert (length seq <> 0)%nat by (destruct seq; [congruence | cbn; lia]).
  pose proof (Nat.mod_upper_bound draw (length seq)). lia.
Qed.

Lemma neg_candidates_In (n : nat) (sample idx : Z) :
  In idx (Classifier.neg_candidates n sample) <->
  (0 <= idx < Z.of_nat n)%Z /\ idx <> sample.
Proof.
  unfold Classifier.neg_candidates. rewrite filter_In, in_map_iff, negb_true_iff, Z.eqb_neq.
  split.
  - intros [(k & <- & Hk) Hne]. apply in_seq in Hk. split; [lia | assumption].
  - intros [Hr Hne]. split; [|assumption].
    exists (Z.to_nat idx). split; [lia|]. apply in_seq. lia.
Qed.

Lemma neg_choice_sound (draw n : nat) (sample idx : Z) :
  Classifier.neg_choice draw n sample = Ok idx ->
  (0 <= idx < Z.of_nat n)%Z /\ idx <> sample.
Proof.
  intros H. apply choice_In in H. apply neg_candidates_In. exact H.
Qed.

Lemma neg_choice_defined (draw n : nat) (sample : Z) :
  (2 <= n)%nat -> exists idx, Classifier.neg_choice draw n sample = Ok idx.
Proof.
  intros Hn. apply choice_defined.
  destruct (Z.eq_dec sample 0) as [->|Hs].
  - assert (H : In 1%Z (Classifier.neg_candidates n 0)).
    { apply neg_candidates_In. lia. }
    intros E. rewrite E in H. exact H.
  - assert (H : In 0%Z (Classifier.neg_candidates n sample)).
    { apply neg_candidates_In. split; [lia | congruence]. }
    intros E. rewrite E in H. exact H.
Qed.

Lemma tensor_index_nonneg {A : Type} (t : list A) (i : Z) (row : A) :
  (0 <= i)%Z ->
  (Classifier.tensor_index t i = Ok row <-> nth_error t (Z.to_nat i) = Some row).
Proof.
  intros Hi. unfold Classifier.tensor_index.
  assert (E : (i <? 0)%Z = false) by (apply Z.ltb_ge; lia).
  rewrite E, E.
  destruct (nth_error t (Z.to_nat i)); split; congruence.
Qed.

Lemma stack_inv {A : Type} (l out : list A) : stack l = Ok out -> out = l.
Proof. destruct l; cbn; congruence. Qed.

(** C3: every row the sampler returns is the embedding of an index that
    [random.choice] drew among the intent ids [0 .. num_intent - 1] other
    than the gold label of the example, whatever the draws; and with at
    least two intents the sampler does return, on a non-empty batch. *)
Theorem neg_sample_excludes_gold (draws : nat -> nat) (num_intent : nat)
  (intent_labels : list Z) (embed_all_intent : tensor2) :
  (forall out,
     Classifier._neg_sample draws num_intent intent_labels embed_all_intent = Ok out ->
     length out = length intent_labels /\
     forall i sample, nth_error intent_labels i = Some sample ->
       exists idx row,
         Classifier.neg_choice (draws i) num_intent sample = Ok idx /\
         (0 <= idx < Z.of_nat num_intent)%Z /\ idx <> sample /\
         nth_error embed_all_intent (Z.to_nat idx) = Some row /\
         nth_error out i = Some row) /\
  (intent_labels <> [] -> (2 <= num_intent)%nat ->
   (num_intent <= length embed_all_intent)%nat ->
   exists out,
     Classifier._neg_sample draws num_intent intent_labels embed_all_intent = Ok out).
Proof.
  split.
  - intros out H. unfold Classifier._neg_sample, mapMi in H.
    destruct (mapMi_from 0 _ intent_labels) as [neg_label|e] eqn:Hloop; [|discriminate].
    cbn [bind] in H. apply stack_inv in H. subst out.
    apply mapMi_from_inv in Hloop as [Hlen Hnth].
    split; [exact Hlen|].
    intros i sample Hi. destruct (Hnth i sample Hi) as (row & Hrow & Hout).
    cbn [Nat.add] in Hrow.
    destruct (Classifier.neg_choice (draws i) num_intent sample) as [idx|e] eqn:Hc;
      [|discriminate].
    cbn [bind] in Hrow. pose proof (neg_choice_sound _ _ _ _ Hc) as [Hr Hne].
    exists idx, row. repeat split; try assumption; try lia.
    apply tensor_index_nonneg; [lia | assumption].
  - intros Hne Hn HE. unfold Classifier._neg_sample, mapMi.
    destruct (mapMi_from_defined
                (fun i sample =>
                   label <- Classifier.neg_choice (draws i) num_intent sample ;;
                   Classifier.tensor_index embed_all_intent label)
                intent_labels 0%nat) as [neg_label Hloop].
    + intros i sample _. cbn [Nat.add].
      destruct (neg_choice_defined (draws i) num_intent sample Hn) as [idx Hc].
      rewrite Hc. cbn [bind]. pose proof (neg_choice_sound _ _ _ _ Hc) as [Hr _].
      destruct (nth_error embed_all_intent (Z.to_nat idx)) as [row|] eqn:Hrow.
      * exists row. apply tensor_index_nonneg; [lia | assumption].
      * apply nth_error_None in Hrow. lia.
    + rewrite Hloop. cbn [bind].
      pose proof (mapMi_from_inv _ _ _ _ Hloop) as [Hlen _].
      destruct neg_label as [|r rs]; [|cbn; eauto].
      destruct intent_labels; [congruence | discriminate].
Qed.

(** *** The forward pass of the joint head *)

Section ForwardShape.
Import Classifier.

Variable self : DIETClassifier.
Variable args : forward_args.
Variable rng : randomness.

(** What a returning call of [forward] has computed, and the two shapes of
    its output. *)
Lemma forward_inv (out : forward_output) :
  forward self args rng = Ok out ->
  exists el lg il l,
    entities_loss_of self args (entities_embed self args rng) = Ok el /\
    intent_branch self args rng (pooled_output self args rng) = Ok (lg, il) /\
    joint_loss args el il = Ok l /\
    output_loss out = l /\
    ((training self = false /\ resolved_return_dict self args = false /\
      exists items, out = TupleOutput items) \/
     (resolved_return_dict self args = true /\
      exists d, out = DictOutput d /\ entities_loss d = el /\ intent_loss d = il /\
                loss d = l /\ snd (logits d) = lg)).
Proof.
  unfold forward. intros H.
  destruct (entities_loss_of self args (entities_embed self args rng)) as [el|e] eqn:Hel;
    [|discriminate].
  cbn [bind] in H.
  destruct (intent_branch self args rng (pooled_output self args rng)) as [[lg il]|e] eqn:Hbr;
    [|discriminate].
  cbn [bind fst snd] in H.
  destruct (joint_loss args el il) as [l|e] eqn:Hl; [|discriminate].
  cbn [bind] in H.
  exists el, lg, il, l.
  split; [reflexivity|]. split; [reflexivity|]. split; [exact Hl|].
  unfold outputs_of in H.
  destruct (training self) eqn:Htr; destruct (resolved_return_dict self args) eqn:Hrd;
    cbn in H; try discriminate.
  - injection H as <-. split; [reflexivity|]. right. split; [reflexivity|].
    eexists. split; [reflexivity|]. cbn. repeat split.
  - injection H as <-. split; [reflexivity|]. right. split; [reflexivity|].
    eexists. split; [reflexivity|]. cbn. repeat split.
  - injection H as <-. split.
    + destruct (is_not_None el && is_not_None il); reflexivity.
    + left. repeat split. eexists. reflexivity.
Qed.

(** In training mode a call that hands [return_dict = False] to the
    encoder cannot return: the dictionary reads an attribute of the plain
    tuple. *)
Lemma forward_training_plain_tuple (out : forward_output) :
  training self = true -> resolved_return_dict self args = false ->
  forward self args rng <> Ok out.
Proof.
  intros Htr Hrd H. apply forward_inv in H as (el & lg & il & l & _ & _ & _ & _ & Hshape).
  destruct Hshape as [(Htr' & _) | (Hrd' & _)]; congruence.
Qed.

(** The tuple is returned only in evaluation mode with [return_dict]
    false; what a call returns in training mode is the dictionary. *)
Lemma forward_tuple_only_in_evaluation (items : list tuple_item) :
  forward self args rng = Ok (TupleOutput items) ->
  training self = false /\ resolved_return_dict self args = false.
Proof.
  intros H. apply forward_inv in H as (el & lg & il & l & _ & _ & _ & _ & Hshape).
  destruct Hshape as [(Htr & Hrd & _) | (_ & d & Hd & _)]; [split; assumption | discriminate].
Qed.

Lemma forward_training_returns_dict (out : forward_output) :
  training self = true -> forward self args rng = Ok out ->
  exists d, out = DictOutput d.
Proof.
  intros Htr H. apply forward_inv in H as (el & lg & il & l & _ & _ & _ & _ & Hshape).
  destruct Hshape as [(Htr' & _) | (_ & d & Hd & _)]; [congruence | eauto].
Qed.

End ForwardShape.

Lemma joint_loss_inv args el il l :
  Classifier.joint_loss args el il = Ok l ->
  (Classifier.entities_labels args <> None /\ Classifier.intent_labels args <> None /\
   exists e i, el = Some e /\ il = Some i /\ l = Some (e * 0.5 + i * 0.5)) \/
  ((Classifier.entities_labels args = None \/ Classifier.intent_labels args = None) /\
   l = None).
Proof.
  unfold Classifier.joint_loss.
  destruct (Classifier.entities_labels args) as [elab|];
    destruct (Classifier.intent_labels args) as [ilab|].
  - destruct el as [e|]; [|discriminate]. destruct il as [i|]; [|discriminate].
    intros [= <-]. left. repeat split; try discriminate. eauto.
  - intros [= <-]. right. auto.
  - intros [= <-]. right. auto.
  - intros [= <-]. right. auto.
Qed.

(** C2: whenever [forward] returns, the joint loss of its output is
    [0.5 * entity_loss + 0.5 * intent_loss] if both gold entity tags and
    gold intent labels were supplied, and is absent ([None]) if either was
    omitted. *)
Theorem joint_loss_half_half (self : Classifier.DIETClassifier)
  (args : Classifier.forward_args) (rng : Classifier.randomness)
  (out : Classifier.forward_output) :
  Classifier.forward self args rng = Ok out ->
  (Classifier.entities_labels args <> None ->
   Classifier.intent_labels args <> None ->
   exists e i lg,
     Classifier.entities_loss_of self args (Classifier.entities_embed self args rng)
       = Ok (Some e) /\
     Classifier.intent_branch self args rng (Classifier.pooled_output self args rng)
       = Ok (lg, Some i) /\
     Classifier.output_loss out = Some (0.5 * e + 0.5 * i) /\
     (forall d, out = Classifier.DictOutput d ->
        Classifier.entities_loss d = Some e /\ Classifier.intent_loss d = Some i)) /\
  (Classifier.entities_labels args = None \/ Classifier.intent_labels args = None ->
   Classifier.output_loss out = None).
Proof.
  intros H.
  apply forward_inv in H as (el & lg & il & l & Hel & Hbr & Hl & Hout & Hshape).
  apply joint_loss_inv in Hl as [(He & Hi & e & i & -> & -> & ->) | (Hnone & ->)].
  - split.
    + intros _ _. exists e, i, lg.
      split; [assumption|]. split; [assumption|].
      split; [rewrite Hout; f_equal; lra|].
      intros d Hd.
      destruct Hshape as [(_ & _ & items & ->) | (_ & d' & -> & Hd1 & Hd2 & _)].
      * discriminate.
      * injection Hd as <-. split; assumption.
    + intros [Hn | Hn]; contradiction.
  - split.
    + intros He Hi. destruct Hnone; contradiction.
    + intros _. exact Hout.
Qed.

(** *** The small instance, evaluated *)

Lemma norm2_singleton (x : R) : Loss.norm2 [x] = Rabs x.
Proof.
  unfold Loss.norm2. cbn [map tensor_sum].
  replace (x * x + 0) with (Rsqr x) by (unfold Rsqr; ring).
  apply sqrt_Rsqr_abs.
Qed.

Lemma sim_vec_singleton (x y : R) :
  Loss.sim_vec [x] [y] =
  Ok (x * y * (/ Rmax (Rabs x) Loss.eps * / Rmax (Rabs y) Loss.eps)).
Proof.
  rewrite sim_vec_dot by reflexivity. rewrite !norm2_singleton.
  unfold dot. cbn [combine map tensor_sum fst snd]. f_equal. ring.
Qed.

Lemma floor_of_unit (x : R) : Rabs x = 1 -> Rmax (Rabs x) Loss.eps = 1.
Proof.
  intros ->. apply Rmax_left, eps_le_1.
Qed.

Lemma sim_vec_units (x y : R) :
  Rabs x = 1 -> Rabs y = 1 -> Loss.sim_vec [x] [y] = Ok (x * y).
Proof.
  intros Hx Hy. rewrite sim_vec_singleton, !floor_of_unit by assumption.
  f_equal. field.
Qed.

Lemma sim_vec_zero_l (y : R) : Loss.sim_vec [0] [y] = Ok 0.
Proof.
  rewrite sim_vec_singleton. f_equal. ring.
Qed.

Lemma Rabs_minus_one : Rabs (-1) = 1.
Proof. unfold Rabs. destruct (Rcase_abs (-1)); lra. Qed.

Lemma fixture_sim_pos_pos : Loss.sim_vec [1] [1] = Ok 1.
Proof.
  rewrite sim_vec_units by apply Rabs_R1. f_equal. ring.
Qed.

Lemma fixture_sim_pos_neg : Loss.sim_vec [1] [-1] = Ok (-1).
Proof.
  rewrite sim_vec_units by (apply Rabs_R1 || apply Rabs_minus_one). f_equal. ring.
Qed.

Lemma fixture_margin : Loss._loss_margin Loss.default [1] [-1] = Ok 0.
Proof.
  unfold Loss._loss_margin, Loss.neg_term, Loss.pos_term, Loss.default.
  cbn [Loss.use_max_sim_neg Loss.mu_pos Loss.mu_neg tensor_max max_from bind map
       tensor_mean tensor_sum length INR].
  rmax_tac. f_equal. lra.
Qed.

Lemma fixture_loss_forward : Loss.forward Loss.default [[1]] [[1]] [[-1]] = Ok 0.
Proof.
  unfold Loss.forward, Loss.sim, broadcast2.
  cbn [length Nat.eqb combine mapM fst snd].
  rewrite fixture_sim_pos_pos, fixture_sim_pos_neg. cbn [bind].
  apply fixture_margin.
Qed.

Section FixtureRuns.
Import Classifier.

Variable tr : bool.
Variable p : R.
Variable n : nat.
Variable rng : randomness.

Lemma fixture_outputs_data (args : forward_args) :
  outputs_data (outputs_of (Fixture.model tr p n) args) = Fixture.encoder (bert_inputs args).
Proof.
  unfold outputs_of. destruct (resolved_return_dict _ _); reflexivity.
Qed.

Lemma fixture_pooled_output (args : forward_args) :
  pooled_output (Fixture.model tr p n) args rng = dropout tr p (pooled_noise rng) [[[1]]].
Proof.
  unfold pooled_output. rewrite fixture_outputs_data. reflexivity.
Qed.

Lemma fixture_entities_embed (args : forward_args) :
  entities_embed (Fixture.model tr p n) args rng = dropout tr p (sequence_noise rng) [[[1]]].
Proof.
  unfold entities_embed, sequence_output. rewrite fixture_outputs_data.
  cbn [Fixture.model entities_dense_embed training hidden_dropout_prob].
  cbn [Fixture.encoder last_hidden_state map skipn].
  rewrite map_ext with (g := fun x => x) by (intros; apply map_id).
  apply map_id.
Qed.

Lemma fixture_entities_loss_labelled rd x :
  entities_loss_of (Fixture.model tr p n) (Fixture.labelled rd) x = Ok (Some 1).
Proof.
  unfold entities_loss_of. cbn. do 2 f_equal. lra.
Qed.

Lemma fixture_entities_loss_unlabelled rd x :
  entities_loss_of (Fixture.model tr p n) (Fixture.unlabelled rd) x = Ok None.
Proof. reflexivity. Qed.

End FixtureRuns.

Lemma sim_vec_kept (x y : R) :
  Loss.eps <= x -> Rabs y = 1 -> Loss.sim_vec [x] [y] = Ok y.
Proof.
  intros Hx Hy. pose proof eps_pos as He.
  rewrite sim_vec_singleton, (floor_of_unit y Hy).
  rewrite (Rabs_right x) by lra. rewrite (Rmax_left x) by exact Hx.
  f_equal. field. lra.
Qed.

Lemma fixture_logits_kept (x : R) :
  Loss.eps <= x ->
  Classifier.logit_intent [[[x]]] [[1]; [-1]] = Ok [[1; -1]].
Proof.
  intros Hx. unfold Classifier.logit_intent, Loss.sim, broadcast2.
  cbn [length Nat.eqb mapM].
  rewrite (sim_vec_kept x 1 Hx Rabs_R1), (sim_vec_kept x (-1) Hx Rabs_minus_one).
  reflexivity.
Qed.

Lemma fixture_logits_dropped :
  Classifier.logit_intent [[[0]]] [[1]; [-1]] = Ok [[0; 0]].
Proof.
  unfold Classifier.logit_intent, Loss.sim, broadcast2.
  cbn [length Nat.eqb mapM]. rewrite !sim_vec_zero_l. reflexivity.
Qed.

Lemma fixture_logits_single (x : R) :
  Loss.eps <= x ->
  Classifier.logit_intent [[[x]]] [[1]] = Ok [[1]].
Proof.
  intros Hx. unfold Classifier.logit_intent, Loss.sim, broadcast2.
  cbn [length Nat.eqb mapM combine fst snd].
  rewrite (sim_vec_kept x 1 Hx Rabs_R1). reflexivity.
Qed.

Lemma fixture_loss_forward_kept (x : R) :
  Loss.eps <= x -> Loss.forward Loss.default [[x]] [[1]] [[-1]] = Ok 0.
Proof.
  intros Hx. unfold Loss.forward, Loss.sim, broadcast2.
  cbn [length Nat.eqb combine mapM fst snd].
  rewrite (sim_vec_kept x 1 Hx Rabs_R1), (sim_vec_kept x (-1) Hx Rabs_minus_one).
  cbn [bind]. apply fixture_margin.
Qed.

Section FixtureBranch.
Import Classifier.

Variable tr : bool.
Variable p : R.
Variable rng : randomness.

Lemma fixture_all_intent :
  embed_all_intent (Fixture.model tr p 2) 2 = [[1]; [-1]].
Proof. reflexivity. Qed.

Lemma fixture_neg_sample :
  _neg_sample (neg_draws rng) 2 [0%Z] [[1]; [-1]] = Ok [[-1]].
Proof.
  unfold _neg_sample, mapMi, mapMi_from, neg_choice, choice.
  cbn [neg_candidates seq map filter Z.of_nat Z.eqb negb Pos.of_succ_nat Pos.succ length].
  rewrite Nat.mod_1_r. reflexivity.
Qed.

Lemma fixture_branch_labelled rd (x : R) :
  Loss.eps <= x ->
  intent_branch (Fixture.model tr p 2) (Fixture.labelled rd) rng [[[x]]] =
  Ok (SimilarityLogits [[1; -1]], Some 0).
Proof.
  intros Hx. unfold intent_branch.
  cbn [Fixture.model use_dot_product intents_output_embed num_intents
       intents_label_embed intents_label_dense map].
  rewrite fixture_all_intent, (fixture_logits_kept x Hx). cbn [bind].
  cbn [Fixture.labelled intent_labels mapM]. unfold embedding at 1.
  cbn [Nat.add Z.of_nat Z.leb Z.ltb Z.compare andb Z.to_nat bind map concat app
       Pos.of_succ_nat Pos.succ].
  rewrite fixture_neg_sample. cbn [bind].
  rewrite (fixture_loss_forward_kept x Hx). reflexivity.
Qed.

Lemma fixture_branch_unlabelled rd (x : R) (lg : tensor2) :
  logit_intent [[[x]]] [[1]; [-1]] = Ok lg ->
  intent_branch (Fixture.model tr p 2) (Fixture.unlabelled rd) rng [[[x]]] =
  Ok (SimilarityLogits lg, None).
Proof.
  intros Hlg. unfold intent_branch.
  cbn [Fixture.model use_dot_product intents_output_embed num_intents map].
  rewrite fixture_all_intent, Hlg. reflexivity.
Qed.

End FixtureBranch.

Section FixtureForward.
Import Classifier.

Lemma eps_le_unit_scaled : Loss.eps <= 1 / (1 - 0).
Proof.
  replace (1 / (1 - 0)) with 1 by (field; lra). apply eps_le_1.
Qed.

Lemma eps_le_two : Loss.eps <= 1 / (1 - 1 / 2).
Proof.
  replace (1 / (1 - 1 / 2)) with 2 by (field; lra).
  pose proof eps_le_1. lra.
Qed.

(** Evaluation mode, both label sets, a dictionary asked for. *)
Lemma fixture_eval_dict (p : R) (rng : randomness) :
  forward (Fixture.model false p 2) (Fixture.labelled (Some true)) rng =
  Ok (DictOutput Fixture.labelled_dict).
Proof.
  unfold forward.
  rewrite fixture_entities_loss_labelled, fixture_pooled_output. cbn [bind dropout].
  rewrite (fixture_branch_labelled false p rng (Some true) 1 eps_le_1).
  cbn [bind fst snd]. reflexivity.
Qed.

(** Evaluation mode, both label sets, a tuple asked for. *)
Lemma fixture_eval_tuple (p : R) (rng : randomness) :
  forward (Fixture.model false p 2) (Fixture.labelled (Some false)) rng =
  Ok (TupleOutput Fixture.labelled_tuple).
Proof.
  unfold forward.
  rewrite fixture_entities_loss_labelled, fixture_pooled_output. cbn [bind dropout].
  rewrite (fixture_branch_labelled false p rng (Some false) 1 eps_le_1).
  cbn [bind fst snd]. reflexivity.
Qed.

Lemma fixture_dropout_kept (p u : R) :
  u < 1 - p ->
  dropout true p (fun _ _ _ => u) [[[1]]] = [[[1 / (1 - p)]]].
Proof.
  intros Hu. unfold dropout, mapi, mapi_from.
  destruct (Rlt_dec u (1 - p)); [reflexivity | contradiction].
Qed.

Lemma fixture_dropout_dropped (p u : R) :
  ~ u < 1 - p ->
  dropout true p (fun _ _ _ => u) [[[1]]] = [[[0]]].
Proof.
  intros Hu. unfold dropout, mapi, mapi_from.
  destruct (Rlt_dec u (1 - p)); [contradiction | reflexivity].
Qed.

(** Training mode without dropout ([p = 0]), both label sets. *)
Lemma fixture_training_dict :
  forward (Fixture.model true 0 2) (Fixture.labelled (Some true))
          (Fixture.constant_rng 0 0) =
  Ok (DictOutput Fixture.labelled_dict).
Proof.
  unfold forward.
  rewrite fixture_entities_loss_labelled, fixture_pooled_output. cbn [bind].
  cbn [Fixture.constant_rng pooled_noise].
  rewrite fixture_dropout_kept by lra.
  rewrite (fixture_branch_labelled true 0 _ (Some true) _ eps_le_unit_scaled).
  cbn [bind fst snd]. rewrite fixture_entities_embed.
  cbn [Fixture.constant_rng sequence_noise].
  rewrite fixture_dropout_kept by lra.
  reflexivity.
Qed.

Lemma fixture_training_plain_tuple :
  forward (Fixture.model true 0 2) (Fixture.labelled (Some false))
          (Fixture.constant_rng 0 0) =
  Raise (AttributeError "'tuple' object has no attribute 'hidden_states'").
Proof.
  unfold forward.
  rewrite fixture_entities_loss_labelled, fixture_pooled_output. cbn [bind].
  cbn [Fixture.constant_rng pooled_noise].
  rewrite fixture_dropout_kept by lra.
  rewrite (fixture_branch_labelled true 0 _ (Some false) _ eps_le_unit_scaled).
  cbn [bind fst snd]. reflexivity.
Qed.

(** An inference call, through whatever dropout leaves of the pooled
    vector. *)
Lemma fixture_unlabelled_dict (tr : bool) (p u x : R) (d : nat) (lg : tensor2) :
  dropout tr p (fun _ _ _ => u) [[[1]]] = [[[x]]] ->
  logit_intent [[[x]]] [[1]; [-1]] = Ok lg ->
  forward (Fixture.model tr p 2) (Fixture.unlabelled (Some true))
          (Fixture.constant_rng u d) =
  Ok (DictOutput (Fixture.unlabelled_dict lg)).
Proof.
  intros Hdrop Hlg. unfold forward.
  rewrite fixture_entities_loss_unlabelled, fixture_pooled_output. cbn [bind].
  cbn [Fixture.constant_rng pooled_noise]. rewrite Hdrop.
  rewrite (fixture_branch_unlabelled tr p _ (Some true) x lg Hlg).
  cbn [bind fst snd]. rewrite fixture_entities_embed.
  cbn [Fixture.constant_rng sequence_noise]. rewrite Hdrop.
  destruct tr; reflexivity.
Qed.

End FixtureForward.

Lemma joint_loss_half_half_witness :
  (exists e i lg,
     Classifier.entities_loss_of (Fixture.model false 0.1 2) (Fixture.labelled (Some true))
       (Classifier.entities_embed (Fixture.model false 0.1 2)
          (Fixture.labelled (Some true)) (Fixture.constant_rng 0 0)) = Ok (Some e) /\
     Classifier.intent_branch (Fixture.model false 0.1 2) (Fixture.labelled (Some true))
       (Fixture.constant_rng 0 0)
       (Classifier.pooled_output (Fixture.model false 0.1 2)
          (Fixture.labelled (Some true)) (Fixture.constant_rng 0 0)) = Ok (lg, Some i) /\
     Classifier.output_loss (Classifier.DictOutput Fixture.labelled_dict)
       = Some (0.5 * e + 0.5 * i) /\
     (forall d, Classifier.DictOutput Fixture.labelled_dict = Classifier.DictOutput d ->
        Classifier.entities_loss d = Some e /\ Classifier.intent_loss d = Some i)) /\
  Classifier.output_loss (Classifier.DictOutput (Fixture.unlabelled_dict [[1; -1]])) = None.
Proof.
  split.
  - apply (joint_loss_half_half (Fixture.model false 0.1 2) (Fixture.labelled (Some true))
             (Fixture.constant_rng 0 0) _ (fixture_eval_dict 0.1 _));
      discriminate.
  - apply (joint_loss_half_half (Fixture.model false 0.1 2) (Fixture.unlabelled (Some true))
             (Fixture.constant_rng 0 0)).
    + apply (fixture_unlabelled_dict false 0.1 0 1);
        [reflexivity | apply fixture_logits_kept, eps_le_1].
    + left. reflexivity.
Defined.

(** C10: in training mode, a call with [return_dict = False] does not
    return the dictionary: the encoder was asked for a plain tuple, and
    building the dictionary raises [AttributeError].  The same call
    returns the dictionary with [return_dict = True], and the tuple in
    evaluation mode. *)
Theorem training_return_dict_false_raises :
  Classifier.training (Fixture.model true 0 2) = true /\
  Classifier.forward (Fixture.model true 0 2) (Fixture.labelled (Some false))
                     (Fixture.constant_rng 0 0) =
    Raise (AttributeError "'tuple' object has no attribute 'hidden_states'") /\
  Classifier.forward (Fixture.model true 0 2) (Fixture.labelled (Some true))
                     (Fixture.constant_rng 0 0) =
    Ok (Classifier.DictOutput Fixture.labelled_dict) /\
  Classifier.forward (Fixture.model false 0 2) (Fixture.labelled (Some false))
                     (Fixture.constant_rng 0 0) =
    Ok (Classifier.TupleOutput Fixture.labelled_tuple).
Proof.
  split; [reflexivity|]. split; [apply fixture_training_plain_tuple|].
  split; [apply fixture_training_dict | apply fixture_eval_tuple].
Qed.

(** *** Randomness *)

Lemma mapi_from_ext {A B : Type} (f g : nat -> A -> B) (l : list A) :
  (forall i a, f i a = g i a) ->
  forall k, Classifier.mapi_from k f l = Classifier.mapi_from k g l.
Proof.
  intros H. induction l as [|a l IH]; intros k; cbn; [reflexivity|].
  rewrite H, IH. reflexivity.
Qed.

Lemma dropout_ext (tr : bool) (p : R) (n1 n2 : nat -> nat -> nat -> R) x :
  (tr = true -> forall b t h, n1 b t h = n2 b t h) ->
  Classifier.dropout tr p n1 x = Classifier.dropout tr p n2 x.
Proof.
  intros H. unfold Classifier.dropout. destruct tr; [|reflexivity].
  specialize (H eq_refl). unfold Classifier.mapi.
  apply mapi_from_ext. intros b m.
  apply mapi_from_ext. intros t v.
  apply mapi_from_ext. intros h a. rewrite H. reflexivity.
Qed.

Lemma mapMi_from_ext {A B : Type} (f g : nat -> A -> result B) (l : list A) :
  (forall i a, f i a = g i a) ->
  forall k, mapMi_from k f l = mapMi_from k g l.
Proof.
  intros H. induction l as [|a l IH]; intros k; cbn; [reflexivity|].
  rewrite H, IH. reflexivity.
Qed.

Lemma neg_sample_ext (d1 d2 : nat -> nat) n labels E :
  (forall i, d1 i = d2 i) ->
  Classifier._neg_sample d1 n labels E = Classifier._neg_sample d2 n labels E.
Proof.
  intros H. unfold Classifier._neg_sample, mapMi.
  rewrite (mapMi_from_ext _ (fun i sample =>
             label <- Classifier.neg_choice (d2 i) n sample ;;
             Classifier.tensor_index E label)); [reflexivity|].
  intros i a. rewrite H. reflexivity.
Qed.

Lemma intent_branch_ext self args (rng1 rng2 : Classifier.randomness) pooled :
  (forall i, Classifier.neg_draws rng1 i = Classifier.neg_draws rng2 i) ->
  Classifier.intent_branch self args rng1 pooled =
  Classifier.intent_branch self args rng2 pooled.
Proof.
  intros H. unfold Classifier.intent_branch.
  destruct (Classifier.use_dot_product self); [|reflexivity].
  destruct (Classifier.logit_intent _ _); [|reflexivity]. cbn [bind].
  destruct (Classifier.intent_labels args) as [labels|]; [|reflexivity].
  destruct (mapM _ labels); [|reflexivity]. cbn [bind].
  rewrite (neg_sample_ext _ _ _ _ _ H). reflexivity.
Qed.

(** C8, as the code has it: in evaluation mode two calls of [forward]
    with the same inputs, the same parameters and the same
    negative-sample draws return the same result, whatever the draws
    behind the dropout masks.  (In training mode dropout is active, in the
    head and in the encoder, and the result depends on its masks.) *)
Theorem forward_deterministic (self : Classifier.DIETClassifier)
  (args : Classifier.forward_args) (rng1 rng2 : Classifier.randomness) :
  Classifier.training self = false ->
  (forall i, Classifier.neg_draws rng1 i = Classifier.neg_draws rng2 i) ->
  Classifier.forward self args rng1 = Classifier.forward self args rng2.
Proof.
  intros Heval Hdraws.
  assert (Hseq : Classifier.entities_embed self args rng1 =
                 Classifier.entities_embed self args rng2).
  { unfold Classifier.entities_embed, Classifier.sequence_output. f_equal.
    apply dropout_ext. intros Htr. congruence. }
  assert (Hpool : Classifier.pooled_output self args rng1 =
                  Classifier.pooled_output self args rng2).
  { unfold Classifier.pooled_output.
    apply dropout_ext. intros Htr. congruence. }
  unfold Classifier.forward.
  rewrite Hseq, Hpool, (intent_branch_ext self args rng1 rng2 _ Hdraws).
  reflexivity.
Qed.

Lemma forward_deterministic_witness :
  Classifier.forward (Fixture.model false 0.1 2) (Fixture.labelled (Some true))
                     (Fixture.constant_rng 0 3) =
  Classifier.forward (Fixture.model false 0.1 2) (Fixture.labelled (Some true))
                     (Fixture.constant_rng 0.95 3).
Proof.
  apply forward_deterministic.
  - reflexivity.
  - intros i. reflexivity.
Defined.

(** The claim of C8 fails in training mode: with the same inputs,
    parameters and negative-sample draws, a dropout mask that keeps the
    pooled vector and one that zeroes it give different intent logits. *)
Lemma dropout_breaks_determinism :
  ~ (forall (self : Classifier.DIETClassifier) (args : Classifier.forward_args)
            (rng1 rng2 : Classifier.randomness),
       (forall i, Classifier.neg_draws rng1 i = Classifier.neg_draws rng2 i) ->
       Classifier.forward self args rng1 = Classifier.forward self args rng2).
Proof.
  intros H.
  specialize (H (Fixture.model true (1 / 2) 2) (Fixture.unlabelled (Some true))
                (Fixture.constant_rng 0 0) (Fixture.constant_rng (3 / 4) 0)
                (fun i => eq_refl)).
  rewrite (fixture_unlabelled_dict true (1 / 2) 0 (1 / (1 - 1 / 2)) 0 [[1; -1]]) in H.
  - rewrite (fixture_unlabelled_dict true (1 / 2) (3 / 4) 0 0 [[0; 0]]) in H.
    + injection H as H. lra.
    + apply fixture_dropout_dropped. lra.
    + apply fixture_logits_dropped.
  - apply fixture_dropout_kept. lra.
  - apply fixture_logits_kept, eps_le_two.
Qed.

(** *** A vocabulary of one intent *)

Lemma embedding_gold_zero (n : nat) (weight : nat -> list R) (labels : list Z) :
  Forall (fun l => l = 0%Z) labels ->
  mapM (Classifier.embedding (n + 2) weight) labels = Ok (map (fun _ => weight 0%nat) labels).
Proof.
  induction 1 as [|l labels Hl _ IH]; cbn [mapM map]; [reflexivity|].
  subst l. rewrite IH. unfold Classifier.embedding.
  replace (0 <? Z.of_nat (n + 2))%Z with true by (symmetry; apply Z.ltb_lt; lia).
  reflexivity.
Qed.

Lemma choice_of_nothing (draw : nat) :
  Classifier.neg_choice draw 1 0 = Raise (IndexError "Cannot choose from an empty sequence").
Proof.
  unfold Classifier.neg_choice, Classifier.choice.
  cbn [Classifier.neg_candidates seq map filter Z.of_nat Z.eqb negb length].
  destruct (draw mod 0)%nat; reflexivity.
Qed.

Lemma neg_sample_single_intent (draws : nat -> nat) (labels : list Z) (E : list (list R)) :
  labels <> [] -> Forall (fun l => l = 0%Z) labels ->
  Classifier._neg_sample draws 1 labels E =
  Raise (IndexError "Cannot choose from an empty sequence").
Proof.
  intros Hne Hall. destruct Hall as [|l labels Hl _]; [congruence|]. subst l.
  unfold Classifier._neg_sample, mapMi. cbn [mapMi_from].
  rewrite choice_of_nothing. reflexivity.
Qed.

(** C9: with a vocabulary of one intent, the embedding-similarity
    strategy and gold intent labels (all of them the only intent id, 0),
    the candidates of [random.choice] are empty: the sampler raises
    [IndexError], and so does [forward] once the steps before the sampler
    have gone through. *)
Theorem single_intent_sampling_fails (self : Classifier.DIETClassifier)
  (args : Classifier.forward_args) (rng : Classifier.randomness)
  (labels : list Z) (el : option R) (lg : list (list R)) :
  Classifier.num_intents self = 1%nat ->
  Classifier.use_dot_product self = true ->
  Classifier.intent_labels args = Some labels ->
  labels <> [] ->
  Forall (fun l => l = 0%Z) labels ->
  Classifier.entities_loss_of self args (Classifier.entities_embed self args rng) = Ok el ->
  Classifier.logit_intent
    (map (map (Classifier.intents_output_embed self))
         (Classifier.pooled_output self args rng))
    (Classifier.embed_all_intent self 1) = Ok lg ->
  Forall (fun sample => Classifier.neg_candidates 1 sample = []) labels /\
  Classifier._neg_sample (Classifier.neg_draws rng) 1 labels
    (Classifier.embed_all_intent self 1) =
    Raise (IndexError "Cannot choose from an empty sequence") /\
  Classifier.forward self args rng =
    Raise (IndexError "Cannot choose from an empty sequence").
Proof.
  intros Hn Hdot Hlab Hne Hall Hel Hlg.
  split; [|split].
  - eapply Forall_impl; [|exact Hall]. intros l ->. reflexivity.
  - apply neg_sample_single_intent; assumption.
  - unfold Classifier.forward. rewrite Hel. cbn [bind].
    unfold Classifier.intent_branch. rewrite Hdot, Hn, Hlg, Hlab. cbn [bind].
    rewrite (embedding_gold_zero 1 _ labels Hall). cbn [bind].
    rewrite neg_sample_single_intent by assumption. reflexivity.
Qed.

Lemma single_intent_sampling_fails_witness :
  Forall (fun sample => Classifier.neg_candidates 1 sample = []) [0%Z] /\
  Classifier._neg_sample (fun _ => 4%nat) 1 [0%Z]
    (Classifier.embed_all_intent (Fixture.model false 0.1 1) 1) =
    Raise (IndexError "Cannot choose from an empty sequence") /\
  Classifier.forward (Fixture.model false 0.1 1) (Fixture.labelled (Some true))
                     (Fixture.constant_rng 0 4) =
    Raise (IndexError "Cannot choose from an empty sequence").
Proof.
  apply (single_intent_sampling_fails (Fixture.model false 0.1 1)
           (Fixture.labelled (Some true)) (Fixture.constant_rng 0 4)
           [0%Z] (Some 1) [[1]]).
  - reflexivity.
  - reflexivity.
  - reflexivity.
  - discriminate.
  - repeat constructor.
  - apply fixture_entities_loss_labelled.
  - rewrite fixture_pooled_output. apply fixture_logits_single, eps_le_1.
Defined.

Lemma neg_sample_excludes_gold_witness :
  exists out,
    Classifier._neg_sample (fun i => (5 + i)%nat) 3 [0%Z; 2%Z] [[1]; [2]; [3]] = Ok out /\
    length out = 2%nat /\
    exists idx row,
      Classifier.neg_choice 6 3 2 = Ok idx /\ idx <> 2%Z /\
      nth_error [[1]; [2]; [3]] (Z.to_nat idx) = Some row /\
      nth_error out 1 = Some row.
Proof.
  destruct (neg_sample_excludes_gold (fun i => (5 + i)%nat) 3 [0%Z; 2%Z] [[1]; [2]; [3]])
    as [Hsound Hdefined].
  destruct Hdefined as [out Hout]; [discriminate | lia | cbn; lia |].
  exists out. split; [exact Hout|].
  destruct (Hsound out Hout) as [Hlen Hrows]. split; [exact Hlen|].
  destruct (Hrows 1%nat 2%Z eq_refl) as (idx & row & Hc & _ & Hne & Hrow & Hnth).
  exists idx, row. repeat split; assumption.
Defined.

(** *** The hybrid cross-entropy loss *)

Lemma ln_le_mono (x y : R) : 0 < x -> x <= y -> ln x <= ln y.
Proof.
  intros Hx [Hlt | ->]; [left; apply ln_increasing; assumption | right; reflexivity].
Qed.

Lemma exp_le_mono (x y : R) : x <= y -> exp x <= exp y.
Proof.
  intros [Hlt | ->]; [left; apply exp_increasing; assumption | right; reflexivity].
Qed.

Lemma softplus_pos (x : R) : 0 < ln (1 + exp x).
Proof.
  rewrite <- ln_1. apply ln_increasing; [lra|]. pose proof (exp_pos x). lra.
Qed.

Lemma bce_label_one (x : R) : Loss.bce_with_logits x 1 = ln (1 + exp (- x)).
Proof.
  unfold Loss.bce_with_logits, Loss.sigmoid.
  pose proof (exp_pos (- x)).
  rewrite ln_Rinv by lra. ring.
Qed.

Lemma bce_label_zero (x : R) : Loss.bce_with_logits x 0 = ln (1 + exp x).
Proof.
  unfold Loss.bce_with_logits, Loss.sigmoid.
  pose proof (exp_pos x) as He. rewrite exp_Ropp.
  replace (1 - / (1 + / exp x)) with (/ (1 + exp x)) by (field; lra).
  rewrite Rmult_0_l, ln_Rinv by lra. ring.
Qed.

Lemma nll_two_classes (p n : R) :
  - (p - ln (exp p + exp n)) = ln (1 + exp (n - p)).
Proof.
  pose proof (exp_pos p) as Hp. pose proof (exp_pos (n - p)) as Hn.
  replace (exp p + exp n) with (exp p * (1 + exp (n - p))).
  - rewrite ln_mult by lra. rewrite ln_exp. ring.
  - unfold Rminus. rewrite exp_plus, exp_Ropp. field. lra.
Qed.

(** The raw loss of one example is a sum of three softplus terms. *)
Lemma raw_loss_softplus (p n : R) :
  Loss.raw_loss_spec p n =
  ln (1 + exp (n - p)) + (ln (1 + exp (- p)) + ln (1 + exp n)) / 2.
Proof.
  unfold Loss.raw_loss_spec.
  rewrite nll_two_classes, bce_label_one, bce_label_zero. reflexivity.
Qed.

Lemma raw_loss_pos (p n : R) : 0 < Loss.raw_loss_spec p n.
Proof.
  rewrite raw_loss_softplus.
  pose proof (softplus_pos (n - p)). pose proof (softplus_pos (- p)).
  pose proof (softplus_pos n). lra.
Qed.

(** The scaling coefficient of a value [L] with [ln 2 <= L] is 1. *)
Lemma exp_opp_ln2 : exp (- ln 2) = / 2.
Proof. rewrite exp_Ropp, exp_ln by lra. reflexivity. Qed.

Lemma unlearned_not_scaled (L : R) : ln 2 <= L -> ~ 0.5 < exp (- L).
Proof.
  intros HL Hlt.
  assert (exp (- L) <= / 2).
  { rewrite <- exp_opp_ln2. apply exp_le_mono. lra. }
  lra.
Qed.

(** What the code computes on a batch of two examples: the two default
    [reduction='mean'] give the batch mean of the raw losses, and the
    scaling acts on that single number. *)
Lemma loss_cross_entropy_two self (p1 p2 n1 n2 : R) :
  let L := (Loss.raw_loss_spec p1 n1 + Loss.raw_loss_spec p2 n2) / 2 in
  Loss._loss_cross_entropy self [p1; p2] [n1; n2] =
  Ok (L * (if Rlt_dec 0.5 (exp (- L)) then ((1 - exp (- L)) / 0.5) ^ 4 else 1)).
Proof.
  intros L. unfold Loss._loss_cross_entropy, Loss.cat_columns.
  cbn [length Nat.eqb combine map bind fst snd firstn skipn app].
  unfold Loss.nll_loss, Loss.binary_cross_entropy_with_logits, Loss.log_softmax.
  cbn [combine map mapM bind fst snd nth_error concat app tensor_mean tensor_sum
       length INR].
  unfold Loss._scale_loss.
  cbn [map tensor_max max_from bind].
  match goal with
  | |- context [exp (- ?X)] => replace X with L
  end.
  - destruct (Rlt_dec 0.5 (exp (- L))); reflexivity.
  - unfold L, Loss.raw_loss_spec. rewrite !Rplus_0_r. field.
Qed.

Lemma nll_loss_class_zero (pairs : list (R * R)) :
  mapM (fun p : list R * nat =>
          match nth_error (fst p) (snd p) with
          | Some v => Ok (- v)
          | None => Raise (IndexError "Target is out of bounds")
          end)
       (combine (map Loss.log_softmax (map (fun q => [fst q; snd q]) pairs))
                (map (fun _ => 0%nat) (map (fun q : R * R => [fst q; snd q]) pairs))) =
  Ok (map (fun q => - (fst q - ln (exp (fst q) + exp (snd q)))) pairs).
Proof.
  induction pairs as [|[p n] pairs IH]; [reflexivity|].
  cbn [map combine mapM]. rewrite IH.
  cbn [fst snd Loss.log_softmax map tensor_sum nth_error bind].
  rewrite Rplus_0_r. reflexivity.
Qed.

Lemma bce_columns (pairs : list (R * R)) :
  concat (map (fun p : list R * list R =>
                 map (fun q => Loss.bce_with_logits (fst q) (snd q))
                     (combine (fst p) (snd p)))
              (combine (map (fun q => [fst q; snd q]) pairs)
                       (map (fun row : list R => map (fun _ => 1) (firstn 1 row)
                                        ++ map (fun _ => 0) (skipn 1 row))
                            (map (fun q : R * R => [fst q; snd q]) pairs)))) =
  flat_map (fun q => [Loss.bce_with_logits (fst q) 1; Loss.bce_with_logits (snd q) 0])
           pairs.
Proof.
  induction pairs as [|[p n] pairs IH]; [reflexivity|].
  cbn [map combine concat firstn skipn app fst snd flat_map].
  do 2 f_equal. exact IH.
Qed.

Lemma tensor_sum_two_columns (f g : R * R -> R) (pairs : list (R * R)) :
  tensor_sum (flat_map (fun q => [f q; g q]) pairs) =
  tensor_sum (map (fun q => f q + g q) pairs) /\
  length (flat_map (fun q => [f q; g q]) pairs) = (2 * length pairs)%nat.
Proof.
  induction pairs as [|q pairs [IHs IHl]]; [split; reflexivity|].
  cbn [flat_map app tensor_sum map length]. rewrite IHs, IHl. split; [ring | lia].
Qed.

Lemma tensor_sum_plus (f g : R * R -> R) (pairs : list (R * R)) :
  tensor_sum (map (fun q => f q + g q) pairs) =
  tensor_sum (map f pairs) + tensor_sum (map g pairs).
Proof.
  induction pairs as [|q pairs IH]; cbn; [ring|]. rewrite IH. ring.
Qed.

Lemma tensor_sum_half (f : R * R -> R) (pairs : list (R * R)) :
  tensor_sum (map (fun q => f q / 2) pairs) = tensor_sum (map f pairs) / 2.
Proof.
  induction pairs as [|q pairs IH]; cbn; [field|]. rewrite IH. field.
Qed.

(** What the code computes on any batch: the scaling of the batch mean
    of the raw losses. *)
Lemma loss_cross_entropy_batch self (sim_pos sim_neg : list R) :
  length sim_pos = length sim_neg -> sim_pos <> [] ->
  let L := tensor_sum (Loss.raw_losses sim_pos sim_neg) / INR (length sim_pos) in
  Loss._loss_cross_entropy self sim_pos sim_neg =
  Ok (L * (if Rlt_dec 0.5 (exp (- L)) then ((1 - exp (- L)) / 0.5) ^ 4 else 1)).
Proof.
  intros Hlen Hne L.
  unfold Loss._loss_cross_entropy, Loss.cat_columns.
  rewrite Hlen, Nat.eqb_refl. cbn [bind].
  unfold Loss.nll_loss. rewrite nll_loss_class_zero. cbn [bind].
  unfold Loss.binary_cross_entropy_with_logits. rewrite bce_columns.
  assert (Hpairs : combine sim_pos sim_neg <> []).
  { destruct sim_pos; [congruence|]. destruct sim_neg; discriminate. }
  assert (Hcount : length (combine sim_pos sim_neg) = length sim_pos).
  { rewrite length_combine, <- Hlen. apply Nat.min_id. }
  destruct (tensor_sum_two_columns
              (fun q => Loss.bce_with_logits (fst q) 1)
              (fun q => Loss.bce_with_logits (snd q) 0)
              (combine sim_pos sim_neg)) as [Hsum Hsize].
  set (pairs := combine sim_pos sim_neg) in *.
  destruct (map (fun q => - (fst q - ln (exp (fst q) + exp (snd q)))) pairs)
    as [|a0 nll] eqn:Hnll.
  { destruct pairs; [congruence | discriminate]. }
  destruct (flat_map _ pairs) as [|b0 bce] eqn:Hbce.
  { destruct pairs; [congruence | discriminate]. }
  cbn [tensor_mean bind]. unfold Loss._scale_loss.
  cbn [map tensor_max max_from bind].
  match goal with
  | |- context [exp (- ?X)] => replace X with L
  end.
  - destruct (Rlt_dec 0.5 (exp (- L))); reflexivity.
  - unfold L, Loss.raw_losses. fold pairs.
    rewrite Hsum, Hsize, <- Hnll, length_map, Hcount.
    unfold Loss.raw_loss_spec.
    rewrite (tensor_sum_plus (fun q => - (fst q - ln (exp (fst q) + exp (snd q))))
               (fun q => (Loss.bce_with_logits (fst q) 1 + Loss.bce_with_logits (snd q) 0) / 2)).
    rewrite (tensor_sum_half (fun q => Loss.bce_with_logits (fst q) 1 + Loss.bce_with_logits (snd q) 0)).
    rewrite mult_INR. cbn [INR].
    pose proof (INR_length_pos sim_pos Hne). field. lra.
Qed.

Lemma hybrid_loss_spec_two (p1 p2 n1 n2 : R) :
  let l1 := Loss.raw_loss_spec p1 n1 in
  let l2 := Loss.raw_loss_spec p2 n2 in
  Loss.hybrid_loss_spec [p1; p2] [n1; n2] =
  Ok (if Rlt_dec 0.5 (Rmax (exp (- l1)) (exp (- l2)))
      then (l1 * ((1 - exp (- l1)) / 0.5) ^ 4 + l2 * ((1 - exp (- l2)) / 0.5) ^ 4) / 2
      else (l1 + l2) / 2).
Proof.
  intros l1 l2. unfold Loss.hybrid_loss_spec, Loss._scale_loss, Loss.raw_losses.
  cbn [length Nat.eqb combine map fst snd tensor_max max_from bind].
  fold l1 l2.
  destruct (Rlt_dec 0.5 (Rmax (exp (- l1)) (exp (- l2))));
    cbn [map combine fst snd tensor_mean tensor_sum length INR]; f_equal;
    field; lra.
Qed.

Lemma exp_1_gt_2 : 2 < exp 1.
Proof. pose proof (exp_ineq1 1). lra. Qed.

Lemma raw_loss_undecided : Loss.raw_loss_spec 0 0 = ln 2 + ln 2.
Proof.
  rewrite raw_loss_softplus.
  replace (0 - 0) with 0 by ring. replace (- 0) with 0 by ring.
  rewrite exp_0. replace (1 + 1) with 2 by ring. field.
Qed.

Lemma raw_loss_learned : Loss.raw_loss_spec 1 (-1) < ln 2.
Proof.
  rewrite raw_loss_softplus.
  replace (-1 - 1) with (- 1 + - 1) by ring. rewrite exp_plus.
  replace (-1) with (- (1)) by ring.
  rewrite exp_Ropp.
  pose proof exp_1_gt_2 as He.
  assert (Ht : 0 < / exp 1 < / 2).
  { split; [apply Rinv_0_lt_compat; lra | apply Rinv_lt_contravar; lra]. }
  set (t := / exp 1) in *.
  replace (ln (1 + t * t) + (ln (1 + t) + ln (1 + t)) / 2)
    with (ln ((1 + t * t) * (1 + t))).
  - apply ln_increasing; nra.
  - rewrite ln_mult by nra. field.
Qed.

(** C4: on the positive similarities [0; 1] and the negative similarities
    [0; -1] the code returns the plain batch mean of the two raw losses,
    although the second example has confidence above 0.5; scaling the
    per-example raw losses and taking the batch mean afterwards, as the
    claim words it, gives a larger value. *)
Theorem cross_entropy_scales_batch_mean :
  exists c s,
    Loss._loss_cross_entropy Loss.default [0; 1] [0; -1] = Ok c /\
    c = (Loss.raw_loss_spec 0 0 + Loss.raw_loss_spec 1 (-1)) / 2 /\
    0.5 < exp (- Loss.raw_loss_spec 1 (-1)) /\
    Loss.hybrid_loss_spec [0; 1] [0; -1] = Ok s /\
    c < s.
Proof.
  pose proof raw_loss_undecided as H1.
  pose proof raw_loss_learned as H2.
  pose proof (raw_loss_pos 1 (-1)) as H2pos.
  assert (Hln2 : 0 < ln 2) by (rewrite <- ln_1; apply ln_increasing; lra).
  assert (Hp2 : 0.5 < exp (- Loss.raw_loss_spec 1 (-1))).
  { replace 0.5 with (/ 2) by lra. rewrite <- exp_opp_ln2.
    apply exp_increasing. lra. }
  assert (Hp1 : exp (- Loss.raw_loss_spec 0 0) = / 4).
  { rewrite H1. replace (- (ln 2 + ln 2)) with (- ln 2 + - ln 2) by ring.
    rewrite exp_plus, exp_opp_ln2. lra. }
  eexists. eexists.
  split; [apply loss_cross_entropy_two|].
  cbv zeta.
  set (l1 := Loss.raw_loss_spec 0 0) in *.
  set (l2 := Loss.raw_loss_spec 1 (-1)) in *.
  destruct (Rlt_dec 0.5 (exp (- ((l1 + l2) / 2)))) as [Hs | _].
  { exfalso. apply (unlearned_not_scaled ((l1 + l2) / 2)); [lra | exact Hs]. }
  split; [ring|]. split; [exact Hp2|].
  split; [apply hybrid_loss_spec_two|].
  cbv zeta. fold l1 l2.
  destruct (Rlt_dec 0.5 (Rmax (exp (- l1)) (exp (- l2)))) as [_ | Hn].
  - rewrite Hp1.
    replace (((1 - / 4) / 0.5) ^ 4) with (81 / 16) by lra.
    assert (Hs2 : 0 <= ((1 - exp (- l2)) / 0.5) ^ 4).
    { replace (((1 - exp (- l2)) / 0.5) ^ 4)
        with ((((1 - exp (- l2)) / 0.5) ^ 2) * (((1 - exp (- l2)) / 0.5) ^ 2)) by ring.
      apply Rle_0_sqr. }
    assert (0 <= l2 * ((1 - exp (- l2)) / 0.5) ^ 4) by (apply Rmult_le_pos; lra).
    lra.
  - exfalso. apply Hn. pose proof (Rmax_r (exp (- l1)) (exp (- l2))). lra.
Qed.

(** *** The strategy of the loss layer *)

(** Swapping the negatives of two examples leaves the margin loss alone
    (it sees them through a global maximum) and changes the hybrid loss
    (which pairs each negative with its positive). *)
Lemma margin_blind_to_pairing self :
  Loss._loss_margin self [1; -1] [1; -1] = Loss._loss_margin self [1; -1] [-1; 1].
Proof.
  unfold Loss._loss_margin.
  rewrite (neg_term_of_max self [1; -1] 1), (neg_term_of_max self [-1; 1] 1).
  - reflexivity.
  - cbn. f_equal. apply Rmax_right. lra.
  - cbn. f_equal. apply Rmax_left. lra.
Qed.

Lemma paired_mean_raw_loss :
  ln 2 <= (Loss.raw_loss_spec 1 1 + Loss.raw_loss_spec (-1) (-1)) / 2.
Proof.
  rewrite !raw_loss_softplus.
  replace (1 - 1) with 0 by ring. replace (-1 - -1) with 0 by ring.
  rewrite exp_0. replace (1 + 1) with 2 by ring.
  pose proof (softplus_pos (- (1))). pose proof (softplus_pos 1).
  pose proof (softplus_pos (- (-1))). pose proof (softplus_pos (-1)).
  lra.
Qed.

Lemma swapped_mean_raw_loss :
  (Loss.raw_loss_spec 1 1 + Loss.raw_loss_spec (-1) (-1)) / 2 <
  (Loss.raw_loss_spec 1 (-1) + Loss.raw_loss_spec (-1) 1) / 2.
Proof.
  rewrite !raw_loss_softplus.
  replace (1 - 1) with 0 by ring. replace (-1 - -1) with 0 by ring.
  rewrite exp_0. replace (1 + 1) with 2 by ring.
  replace (-1 - 1) with (- (1 - -1)) by ring. rewrite (exp_Ropp (1 - -1)).
  assert (Ha : 1 < exp (1 - -1)).
  { pose proof (exp_increasing 0 (1 - -1)) as H. rewrite exp_0 in H. apply H. lra. }
  set (a := exp (1 - -1)) in *.
  assert (Hb : 0 < / a) by (apply Rinv_0_lt_compat; lra).
  assert (Hab : a * / a = 1) by (apply Rinv_r; lra).
  assert (Hsum : ln 2 + ln 2 < ln (1 + / a) + ln (1 + a)).
  { rewrite <- !ln_mult by lra. apply ln_increasing; nra. }
  lra.
Qed.

Lemma cross_entropy_sees_pairing self :
  Loss._loss_cross_entropy self [1; -1] [1; -1] <>
  Loss._loss_cross_entropy self [1; -1] [-1; 1].
Proof.
  rewrite !loss_cross_entropy_two. cbv zeta.
  pose proof paired_mean_raw_loss as H1. pose proof swapped_mean_raw_loss as H2.
  set (L1 := (Loss.raw_loss_spec 1 1 + Loss.raw_loss_spec (-1) (-1)) / 2) in *.
  set (L2 := (Loss.raw_loss_spec 1 (-1) + Loss.raw_loss_spec (-1) 1) / 2) in *.
  destruct (Rlt_dec 0.5 (exp (- L1))) as [Hs | _].
  { exfalso. apply (unlearned_not_scaled L1 H1 Hs). }
  destruct (Rlt_dec 0.5 (exp (- L2))) as [Hs | _].
  { exfalso. apply (unlearned_not_scaled L2); [lra | exact Hs]. }
  intros [= H]. lra.
Qed.

Lemma sim_paired : Loss.sim [[1]; [1]] [[1]; [-1]] = Ok [1; -1].
Proof.
  unfold Loss.sim, broadcast2. cbn [length Nat.eqb combine mapM fst snd].
  rewrite fixture_sim_pos_pos, fixture_sim_pos_neg. reflexivity.
Qed.

Lemma sim_swapped : Loss.sim [[1]; [1]] [[-1]; [1]] = Ok [-1; 1].
Proof.
  unfold Loss.sim, broadcast2. cbn [length Nat.eqb combine mapM fst snd].
  rewrite fixture_sim_pos_pos, fixture_sim_pos_neg. reflexivity.
Qed.

(** Whatever the configuration, [forward] is not the hybrid loss on both
    of two batches that differ in the pairing of the negatives. *)
Lemma forward_is_not_cross_entropy self :
  ~ (Loss.forward self [[1]; [1]] [[1]; [-1]] [[1]; [-1]] =
     Loss.forward_cross_entropy self [[1]; [1]] [[1]; [-1]] [[1]; [-1]] /\
     Loss.forward self [[1]; [1]] [[1]; [-1]] [[-1]; [1]] =
     Loss.forward_cross_entropy self [[1]; [1]] [[1]; [-1]] [[-1]; [1]]).
Proof.
  unfold Loss.forward, Loss.forward_cross_entropy.
  rewrite sim_paired, sim_swapped. cbn [bind].
  intros [H1 H2].
  apply (cross_entropy_sees_pairing self).
  rewrite <- H1, <- H2. apply margin_blind_to_pairing.
Qed.

(** C5, as the code has it: for every configuration of the loss layer
    [forward] returns the margin loss of the two similarities, and there
    is a batch on which this is not the hybrid cross-entropy loss. *)
Theorem forward_always_margin (self : Loss.SingleLabelDotProductLoss) :
  (forall inputs_embed labels_embed_positive labels_embed_negative,
     Loss.forward self inputs_embed labels_embed_positive labels_embed_negative =
     (sim_pos <- Loss.sim inputs_embed labels_embed_positive ;;
      sim_neg <- Loss.sim inputs_embed labels_embed_negative ;;
      Loss._loss_margin self sim_pos sim_neg)) /\
  (exists inputs_embed labels_embed_positive labels_embed_negative,
     Loss.forward self inputs_embed labels_embed_positive labels_embed_negative <>
     Loss.forward_cross_entropy self inputs_embed labels_embed_positive
       labels_embed_negative).
Proof.
  split; [reflexivity|].
  pose proof (forward_is_not_cross_entropy self) as Hnot.
  exists [[1]; [1]], [[1]; [-1]].
  assert (Hc : exists c, Loss.forward_cross_entropy self [[1]; [1]] [[1]; [-1]] [[1]; [-1]]
                         = Ok c).
  { unfold Loss.forward_cross_entropy. rewrite sim_paired. cbn [bind].
    rewrite loss_cross_entropy_two. eexists. reflexivity. }
  destruct Hc as [c Hc].
  destruct (Loss.forward self [[1]; [1]] [[1]; [-1]] [[1]; [-1]]) as [v|e] eqn:Hf.
  - destruct (Req_dec v c) as [->|Hne].
    + exists [[-1]; [1]]. intros H. apply Hnot. split; [congruence | exact H].
    + exists [[1]; [-1]]. rewrite Hf, Hc. intros [= H]. contradiction.
  - exists [[1]; [-1]]. rewrite Hf, Hc. discriminate.
Qed.

(** The claim of C5 fails: no configuration of the loss layer makes
    [forward] return the hybrid cross-entropy loss. *)
Lemma no_configuration_selects_cross_entropy :
  ~ (exists self : Loss.SingleLabelDotProductLoss,
       forall inputs_embed labels_embed_positive labels_embed_negative,
         Loss.forward self inputs_embed labels_embed_positive labels_embed_negative =
         Loss.forward_cross_entropy self inputs_embed labels_embed_positive
           labels_embed_negative).
Proof.
  intros [self H]. apply (forward_is_not_cross_entropy self). split; apply H.
Qed.

(** ** Further properties of the loss layer *)

(** *** The similarity *)

Lemma mapM_combine_swap {A C : Type} (f : A -> A -> result C) (xs ys : list A) :
  (forall x y, f x y = f y x) ->
  mapM (fun p => f (fst p) (snd p)) (combine xs ys) =
  mapM (fun p => f (fst p) (snd p)) (combine ys xs).
Proof.
  intros Hf. revert ys. induction xs as [|x xs IH]; intros [|y ys]; cbn; try reflexivity.
  rewrite (Hf x y), IH. reflexivity.
Qed.

Lemma broadcast2_comm {A C : Type} (f : A -> A -> result C) (xs ys : list A) :
  (forall x y, f x y = f y x) ->
  broadcast2 f xs ys = broadcast2 f ys xs.
Proof.
  intros Hf. unfold broadcast2. rewrite (Nat.eqb_sym (length ys) (length xs)).
  destruct (Nat.eqb (length xs) (length ys)) eqn:Hlen.
  - apply mapM_combine_swap, Hf.
  - apply Nat.eqb_neq in Hlen.
    destruct xs as [|x [|x' xs]]; destruct ys as [|y [|y' ys]]; cbn in Hlen;
      try congruence; try reflexivity;
      apply mapM_ext; intros; apply Hf.
Qed.

(** X1: [sim] is symmetric, on vectors and on batches, errors included. *)
Theorem sim_symmetric :
  (forall a b : tensor1, Loss.sim_vec a b = Loss.sim_vec b a) /\
  (forall a b : tensor2, Loss.sim a b = Loss.sim b a).
Proof.
  assert (Hvec : forall a b : tensor1, Loss.sim_vec a b = Loss.sim_vec b a).
  { intros a b. unfold Loss.sim_vec.
    rewrite (broadcast2_comm (fun x y => Ok (x * y)) (Loss.normalize a) (Loss.normalize b)).
    - reflexivity.
    - intros x y. f_equal. ring. }
  split; [exact Hvec|].
  intros a b. unfold Loss.sim. apply broadcast2_comm, Hvec.
Qed.

Lemma dot_nil_r (a : tensor1) : dot a [] = 0.
Proof. unfold dot. destruct a; reflexivity. Qed.

Lemma dot_self_nonneg (a : tensor1) : 0 <= dot a a.
Proof. rewrite dot_self. apply Rle_0_sqr. Qed.

Lemma dot_cons (x y : R) (a b : tensor1) : dot (x :: a) (y :: b) = x * y + dot a b.
Proof. reflexivity. Qed.

(** The inequality of Cauchy and Schwarz on lists. *)
Lemma dot_cauchy_schwarz (a : tensor1) :
  forall b, dot a b * dot a b <= dot a a * dot b b.
Proof.
  induction a as [|x a IH]; intros b.
  - unfold dot at 1 2 3. cbn. pose proof (dot_self_nonneg b). lra.
  - destruct b as [|y b].
    + rewrite !dot_nil_r. lra.
    + rewrite !dot_cons. specialize (IH b).
      pose proof (dot_self_nonneg a) as HA. pose proof (dot_self_nonneg b) as HB.
      set (A := dot a a) in *. set (B := dot b b) in *. set (D := dot a b) in *.
      assert (Hmix : 2 * (x * y * D) <= x * x * B + y * y * A).
      { set (u := x * x * B). set (v := y * y * A). set (w := x * y * D).
        assert (Hu : 0 <= u) by (unfold u; apply Rmult_le_pos; [apply Rle_0_sqr | exact HB]).
        assert (Hv : 0 <= v) by (unfold v; apply Rmult_le_pos; [apply Rle_0_sqr | exact HA]).
        assert (Hw : w * w <= u * v).
        { unfold u, v, w.
          replace (x * y * D * (x * y * D)) with ((x * x) * (y * y) * (D * D)) by ring.
          replace (x * x * B * (y * y * A)) with ((x * x) * (y * y) * (A * B)) by ring.
          apply Rmult_le_compat_l; [|exact IH].
          apply Rmult_le_pos; apply Rle_0_sqr. }
        destruct (Rle_dec (2 * w) (u + v)) as [H | H]; [exact H|].
        exfalso. assert (Hgt : u + v < 2 * w) by lra.
        assert (Hsq : (u + v) * (u + v) < 2 * w * (2 * w)).
        { apply Rmult_le_0_lt_compat; lra. }
        pose proof (Rle_0_sqr (u - v)) as Huv. unfold Rsqr in Huv.
        lra. }
      nra.
Qed.

Lemma abs_dot_le_norms (a b : tensor1) :
  Rabs (dot a b) <= Loss.norm2 a * Loss.norm2 b.
Proof.
  pose proof (dot_cauchy_schwarz a b) as Hcs.
  rewrite (dot_self a), (dot_self b) in Hcs.
  assert (Ha : 0 <= Loss.norm2 a) by apply sqrt_pos.
  assert (Hb : 0 <= Loss.norm2 b) by apply sqrt_pos.
  set (na := Loss.norm2 a) in *. set (nb := Loss.norm2 b) in *.
  assert (Hprod : 0 <= na * nb) by (apply Rmult_le_pos; assumption).
  unfold Rabs. destruct (Rcase_abs (dot a b)) as [Hneg | Hpos].
  - destruct (Rle_dec (- dot a b) (na * nb)) as [H | H]; [exact H | exfalso; nra].
  - destruct (Rle_dec (dot a b) (na * nb)) as [H | H]; [exact H | exfalso; nra].
Qed.

Lemma sim_vec_in_range (a b : tensor1) :
  length a = length b ->
  exists s, Loss.sim_vec a b = Ok s /\ -1 <= s <= 1.
Proof.
  intros Hlen. rewrite sim_vec_dot by exact Hlen. eexists. split; [reflexivity|].
  pose proof (abs_dot_le_norms a b) as Habs.
  pose proof (floor_pos (Loss.norm2 a)) as Hfa.
  pose proof (floor_pos (Loss.norm2 b)) as Hfb.
  pose proof (Rmax_l (Loss.norm2 a) Loss.eps) as Hla.
  pose proof (Rmax_l (Loss.norm2 b) Loss.eps) as Hlb.
  assert (Ha : 0 <= Loss.norm2 a) by apply sqrt_pos.
  assert (Hb : 0 <= Loss.norm2 b) by apply sqrt_pos.
  set (fa := Rmax (Loss.norm2 a) Loss.eps) in *.
  set (fb := Rmax (Loss.norm2 b) Loss.eps) in *.
  assert (Hbound : Rabs (dot a b) <= fa * fb).
  { eapply Rle_trans; [exact Habs|]. apply Rmult_le_compat; assumption. }
  assert (Hpos : 0 < fa * fb) by (apply Rmult_lt_0_compat; assumption).
  replace (dot a b * (/ fa * / fb)) with (dot a b / (fa * fb)) by (field; lra).
  assert (Hlo : - (fa * fb) <= dot a b) by (pose proof (Rle_abs (- dot a b)); rewrite Rabs_Ropp in *; lra).
  assert (Hhi : dot a b <= fa * fb) by (pose proof (Rle_abs (dot a b)); lra).
  split.
  - apply Rmult_le_reg_r with (fa * fb); [exact Hpos|].
    unfold Rdiv. rewrite Rmult_assoc, Rinv_l by lra. lra.
  - apply Rmult_le_reg_r with (fa * fb); [exact Hpos|].
    unfold Rdiv. rewrite Rmult_assoc, Rinv_l by lra. lra.
Qed.

(** X2: on two vectors of the same length [sim] returns a cosine, a
    number between -1 and 1. *)
Theorem sim_bounded (a b : tensor1) :
  length a = length b ->
  exists s, Loss.sim_vec a b = Ok s /\ -1 <= s <= 1.
Proof. exact (sim_vec_in_range a b). Qed.

Lemma sim_bounded_witness :
  exists s, Loss.sim_vec [3; 4] [1; -2] = Ok s /\ -1 <= s <= 1.
Proof. apply (sim_bounded [3; 4] [1; -2]). reflexivity. Defined.

(** *** The margin loss *)

Lemma neg_term_empty self :
  Loss.neg_term self [] =
  Raise (RuntimeError "max(): Expected reduction dim to be specified for input.numel() == 0").
Proof.
  unfold Loss.neg_term. destruct (Loss.use_max_sim_neg self); reflexivity.
Qed.

Lemma tensor_max_defined (t : tensor1) : t <> [] -> exists m, tensor_max t = Ok m.
Proof. destruct t; [congruence|]. intros _. cbn. eauto. Qed.

(** X3: the flag [use_max_sim_neg] does not change the margin loss: the
    hinge of the largest negative similarity is the largest of the hinges. *)
Theorem margin_modes_coincide (mu_pos mu_neg neg_lambda : R) (sim_pos sim_neg : tensor1) :
  Loss._loss_margin
    {| Loss.mu_pos := mu_pos; Loss.mu_neg := mu_neg;
       Loss.use_max_sim_neg := true; Loss.neg_lambda := neg_lambda |} sim_pos sim_neg =
  Loss._loss_margin
    {| Loss.mu_pos := mu_pos; Loss.mu_neg := mu_neg;
       Loss.use_max_sim_neg := false; Loss.neg_lambda := neg_lambda |} sim_pos sim_neg.
Proof.
  unfold Loss._loss_margin.
  destruct sim_neg as [|s t].
  - rewrite !neg_term_empty. reflexivity.
  - destruct (tensor_max_defined (s :: t)) as [m Hm]; [discriminate|].
    rewrite !(neg_term_of_max _ (s :: t) m Hm). reflexivity.
Qed.

(** X4: the margin loss sees the negative similarities only through their
    global maximum. *)
Theorem margin_depends_on_max_negative (self : Loss.SingleLabelDotProductLoss)
  (sim_pos sim_neg sim_neg' : tensor1) :
  sim_neg <> [] ->
  tensor_max sim_neg = tensor_max sim_neg' ->
  Loss._loss_margin self sim_pos sim_neg = Loss._loss_margin self sim_pos sim_neg'.
Proof.
  intros Hne Hmax. destruct (tensor_max_defined sim_neg Hne) as [m Hm].
  unfold Loss._loss_margin.
  rewrite (neg_term_of_max self sim_neg m Hm).
  rewrite (neg_term_of_max self sim_neg' m) by congruence.
  reflexivity.
Qed.

Lemma margin_depends_on_max_negative_witness :
  Loss._loss_margin Loss.default [0.9; 0.3] [-0.5; 0.1] =
  Loss._loss_margin Loss.default [0.9; 0.3] [0.1; 0.1; -1; -0.5].
Proof.
  apply margin_depends_on_max_negative; [discriminate|].
  cbn. f_equal. rmax_tac. reflexivity.
Defined.

Lemma tensor_sum_zero_inv (t : tensor1) :
  Forall (fun x => 0 <= x) t -> tensor_sum t = 0 -> Forall (fun x => x = 0) t.
Proof.
  induction 1 as [|x t Hx Ht IH]; cbn; intros Hsum; [constructor|].
  pose proof (tensor_sum_nonneg t Ht).
  constructor; [lra | apply IH; lra].
Qed.

Lemma max_from_le (c : R) (t : tensor1) :
  forall m, max_from m t <= c <-> m <= c /\ Forall (fun x => x <= c) t.
Proof.
  induction t as [|x t IH]; intros m; cbn.
  - split; [intros H; split; [exact H | constructor] | intros [H _]; exact H].
  - rewrite IH. split.
    + intros [Hm Ht].
      pose proof (Rmax_l m x). pose proof (Rmax_r m x).
      split; [lra | constructor; [lra | exact Ht]].
    + intros [Hm Ht]. inversion Ht; subst.
      split; [apply Rmax_lub; assumption | assumption].
Qed.

(** X5: on non-empty similarities the margin loss is 0 exactly when every
    positive similarity reaches [mu_pos] and every negative similarity
    stays at or below [- mu_neg]. *)
Theorem margin_loss_zero_iff (self : Loss.SingleLabelDotProductLoss)
  (sim_pos sim_neg : tensor1) :
  sim_pos <> [] -> sim_neg <> [] ->
  (Loss._loss_margin self sim_pos sim_neg = Ok 0 <->
   Forall (fun s => Loss.mu_pos self <= s) sim_pos /\
   Forall (fun s => s <= - Loss.mu_neg self) sim_neg).
Proof.
  intros Hp Hn.
  destruct (tensor_max_defined sim_neg Hn) as [m Hm].
  pose proof (neg_term_of_max self sim_neg m Hm) as Hneg.
  rewrite (loss_margin_eq self sim_pos sim_neg _ Hneg Hp).
  pose proof (INR_length_pos sim_pos Hp) as Hlen.
  pose proof (Rmax_l 0 (Loss.mu_neg self + m)) as Hn0.
  pose proof (Rmax_r 0 (Loss.mu_neg self + m)) as Hn1.
  set (n := Rmax 0 (Loss.mu_neg self + m)) in *.
  assert (Hmax : m <= - Loss.mu_neg self <->
                 Forall (fun s => s <= - Loss.mu_neg self) sim_neg).
  { destruct sim_neg as [|s t]; [congruence|]. cbn in Hm. injection Hm as <-.
    rewrite max_from_le. split.
    - intros [H1 H2]. constructor; assumption.
    - intros H. inversion H; subst. split; assumption. }
  split.
  - intros [= Hv].
    assert (Hsum : tensor_sum (map (fun l => l + n) (Loss.pos_term self sim_pos)) = 0).
    { apply Rmult_integral in Hv. destruct Hv as [Hv | Hv]; [exact Hv|].
      pose proof (Rinv_0_lt_compat _ Hlen). lra. }
    apply tensor_sum_zero_inv in Hsum; [|apply shifted_pos_term_nonneg; exact Hn0].
    unfold Loss.pos_term in Hsum. rewrite map_map in Hsum.
    rewrite Forall_map in Hsum.
    assert (Hn_zero : n = 0).
    { destruct sim_pos as [|s t]; [congruence|]. inversion Hsum; subst.
      pose proof (Rmax_l 0 (Loss.mu_pos self - s)). lra. }
    split.
    + eapply Forall_impl; [|exact Hsum]. cbn. intros s Hs.
      pose proof (Rmax_r 0 (Loss.mu_pos self - s)). lra.
    + apply Hmax. lra.
  - intros [Hpos Hnegs]. f_equal.
    assert (Hn_zero : n = 0).
    { apply Hmax in Hnegs. unfold n. apply Rmax_left. lra. }
    rewrite tensor_sum_zero; [unfold Rdiv; ring|].
    unfold Loss.pos_term. rewrite map_map. apply Forall_map.
    eapply Forall_impl; [|exact Hpos]. cbn. intros s Hs.
    rewrite Rmax_left by lra. lra.
Qed.

Lemma margin_loss_zero_iff_witness :
  Loss._loss_margin Loss.default [0.9; 0.8] [-0.5; 0.2] = Ok 0.
Proof.
  apply (margin_loss_zero_iff Loss.default [0.9; 0.8] [-0.5; 0.2]).
  - discriminate.
  - discriminate.
  - split; repeat constructor; cbn; lra.
Defined.

(** *** The confidence scaling and the hybrid loss *)

Lemma max_from_gt (c : R) (t : tensor1) :
  forall m, c < max_from m t <-> c < m \/ Exists (fun x => c < x) t.
Proof.
  induction t as [|x t IH]; intros m; cbn.
  - split; [auto | intros [H | H]; [exact H | inversion H]].
  - rewrite IH. split.
    + intros [H | H].
      * unfold Rmax in H. destruct (Rle_dec m x); [right; left; exact H | left; exact H].
      * right. right. exact H.
    + intros [H | H].
      * left. pose proof (Rmax_l m x). lra.
      * inversion H; subst; [left; pose proof (Rmax_r m x); lra | right; assumption].
Qed.

Lemma confident_iff (l : R) : 0.5 < exp l <-> - ln 2 < l.
Proof.
  replace 0.5 with (/ 2) by lra. rewrite <- exp_opp_ln2. split.
  - apply exp_lt_inv.
  - apply exp_increasing.
Qed.

Lemma pow4_nonneg (x : R) : 0 <= x ^ 4.
Proof.
  replace (x ^ 4) with ((x * x) * (x * x)) by ring. apply Rle_0_sqr.
Qed.

Lemma pow4_lt_1 (x : R) : 0 <= x < 1 -> x ^ 4 < 1.
Proof.
  intros [H0 H1]. replace (x ^ 4) with ((x * x) * (x * x)) by ring.
  assert (x * x < 1) by nra. assert (0 <= x * x) by nra. nra.
Qed.

Lemma pow4_gt_1 (x : R) : 1 < x -> 1 < x ^ 4.
Proof.
  intros H. replace (x ^ 4) with ((x * x) * (x * x)) by ring.
  assert (1 < x * x) by nra. nra.
Qed.

Lemma triggered_coefficients (t : tensor1) :
  Forall2 (fun l c => c = ((1 - exp l) / 0.5) ^ 4 /\ 0 <= c /\
                      (- ln 2 < l <= 0 -> c < 1) /\
                      (l < - ln 2 -> 1 < c))
          t (map (fun pi => ((1 - pi) / 0.5) ^ 4) (map exp t)).
Proof.
  induction t as [|l t IH]; cbn [map]; constructor; [|exact IH].
  split; [reflexivity|]. split; [apply pow4_nonneg|]. split.
  - intros [Hlo Hhi]. apply pow4_lt_1.
    apply confident_iff in Hlo.
    assert (exp l <= 1) by (rewrite <- exp_0; apply exp_le_mono; exact Hhi).
    split; [apply Rmult_le_pos; lra | lra].
  - intros Hlt. apply pow4_gt_1.
    assert (exp l < 0.5).
    { replace 0.5 with (/ 2) by lra. rewrite <- exp_opp_ln2.
      apply exp_increasing. exact Hlt. }
    lra.
Qed.

(** X6: [_scale_loss] keeps the shape; it returns ones when no example has
    probability above 0.5; once one has, every example gets the
    coefficient [((1 - p) / 0.5) ^ 4], which is below 1 for an example of
    probability above 0.5 and above 1 for one of probability below 0.5. *)
Theorem scale_loss_coefficients (log_likelihood : tensor1) :
  log_likelihood <> [] ->
  exists scale,
    Loss._scale_loss log_likelihood = Ok scale /\
    length scale = length log_likelihood /\
    (Forall (fun l => l <= - ln 2) log_likelihood -> Forall (fun c => c = 1) scale) /\
    (Exists (fun l => - ln 2 < l) log_likelihood ->
     Forall2 (fun l c => c = ((1 - exp l) / 0.5) ^ 4 /\ 0 <= c /\
                         (- ln 2 < l <= 0 -> c < 1) /\
                         (l < - ln 2 -> 1 < c))
             log_likelihood scale).
Proof.
  intros Hne. unfold Loss._scale_loss.
  destruct log_likelihood as [|l0 ls]; [congruence|].
  cbn [map tensor_max bind].
  set (ll := l0 :: ls).
  assert (Htrig : 0.5 < max_from (exp l0) (map exp ls) <-> Exists (fun l => - ln 2 < l) ll).
  { rewrite max_from_gt, confident_iff, Exists_map. unfold ll. split.
    - intros [H | H]; [left; exact H | right].
      eapply Exists_impl; [|exact H]. intros l. apply confident_iff.
    - intros H. inversion H; subst; [left; assumption | right].
      eapply Exists_impl; [|eassumption]. intros l. apply confident_iff. }
  destruct (Rlt_dec 0.5 (max_from (exp l0) (map exp ls))) as [Hyes | Hno].
  - eexists. split; [reflexivity|].
    split; [unfold ll; cbn [map length]; rewrite !length_map; reflexivity|].
    split.
    + intros Hall. exfalso. apply Htrig in Hyes.
      apply Exists_exists in Hyes as (l & Hin & Hl).
      rewrite Forall_forall in Hall. specialize (Hall l Hin). lra.
    + intros _. apply (triggered_coefficients ll).
  - eexists. split; [reflexivity|].
    split; [unfold ll; cbn [map length]; rewrite !length_map; reflexivity|].
    split.
    + intros _. apply Forall_forall. intros c Hc.
      change (In c (map (fun _ : R => 1) (map exp ll))) in Hc.
      apply in_map_iff in Hc as (x & Hx & _). congruence.
    + intros Hex. exfalso. apply Hno, Htrig, Hex.
Qed.

Lemma ln_2_pos : 0 < ln 2.
Proof. rewrite <- ln_1. apply ln_increasing; lra. Qed.

Lemma scale_loss_coefficients_witness :
  exists scale,
    Loss._scale_loss [0; - (ln 2 + ln 2)] = Ok scale /\
    Forall2 (fun l c => c = ((1 - exp l) / 0.5) ^ 4 /\ 0 <= c /\
                        (- ln 2 < l <= 0 -> c < 1) /\
                        (l < - ln 2 -> 1 < c))
            [0; - (ln 2 + ln 2)] scale.
Proof.
  destruct (scale_loss_coefficients [0; - (ln 2 + ln 2)]) as (scale & Hs & _ & _ & Htrig).
  - discriminate.
  - exists scale. split; [exact Hs|]. apply Htrig.
    left. pose proof ln_2_pos. lra.
Defined.

Lemma raw_losses_sum_pos (sim_pos sim_neg : tensor1) :
  length sim_pos = length sim_neg -> sim_pos <> [] ->
  0 < tensor_sum (Loss.raw_losses sim_pos sim_neg).
Proof.
  intros Hlen Hne. unfold Loss.raw_losses.
  destruct sim_pos as [|p ps]; [congruence|]. destruct sim_neg as [|n ns]; [discriminate|].
  cbn [combine map tensor_sum fst snd].
  pose proof (raw_loss_pos p n).
  assert (0 <= tensor_sum (map (fun q => Loss.raw_loss_spec (fst q) (snd q)) (combine ps ns))).
  { apply tensor_sum_nonneg, Forall_map, Forall_forall. intros q _.
    left. apply raw_loss_pos. }
  lra.
Qed.

(** X7: [_loss_cross_entropy] raises on similarities of different sizes
    and is [nan] on an empty batch; on a batch of [B >= 1] examples it
    returns one number, computed from the batch mean [L] of the raw
    losses alone: [L] itself when [ln 2 <= L], and [L] scaled by
    [((1 - exp (-L)) / 0.5) ^ 4], which makes it smaller, otherwise.  The
    value is positive and never above [L]. *)
Theorem cross_entropy_batch_value (self : Loss.SingleLabelDotProductLoss)
  (sim_pos sim_neg : tensor1) :
  (length sim_pos <> length sim_neg ->
   Loss._loss_cross_entropy self sim_pos sim_neg =
   Raise (RuntimeError "Sizes of tensors must match except in dimension 1")) /\
  Loss._loss_cross_entropy self [] [] = Raise FloatNaN /\
  (length sim_pos = length sim_neg -> sim_pos <> [] ->
   let L := tensor_sum (Loss.raw_losses sim_pos sim_neg) / INR (length sim_pos) in
   exists v,
     Loss._loss_cross_entropy self sim_pos sim_neg = Ok v /\
     0 < v <= L /\
     (ln 2 <= L -> v = L) /\
     (L < ln 2 -> v = L * ((1 - exp (- L)) / 0.5) ^ 4 /\ v < L)).
Proof.
  split; [|split].
  - intros Hlen. unfold Loss._loss_cross_entropy, Loss.cat_columns.
    apply Nat.eqb_neq in Hlen. rewrite Hlen. reflexivity.
  - reflexivity.
  - intros Hlen Hne L.
    rewrite (loss_cross_entropy_batch self sim_pos sim_neg Hlen Hne). cbv zeta. fold L.
    assert (HL : 0 < L).
    { unfold L. apply Rmult_lt_0_compat.
      - apply raw_losses_sum_pos; assumption.
      - apply Rinv_0_lt_compat, INR_length_pos, Hne. }
    eexists. split; [reflexivity|].
    destruct (Rlt_dec 0.5 (exp (- L))) as [Hyes | Hno].
    + assert (Hsmall : L < ln 2).
      { apply confident_iff in Hyes. lra. }
      assert (Hp : exp (- L) < 1).
      { rewrite <- exp_0. apply exp_increasing. lra. }
      assert (Hc : 0 < ((1 - exp (- L)) / 0.5) ^ 4 < 1).
      { split.
        - apply pow_lt. apply Rmult_lt_0_compat; lra.
        - apply pow4_lt_1. split; [apply Rmult_le_pos; lra | lra]. }
      set (c := ((1 - exp (- L)) / 0.5) ^ 4) in *.
      split; [nra|]. split; [intros Hbig; lra|].
      intros _. split; [reflexivity | nra].
    + assert (Hbig : ln 2 <= L).
      { destruct (Rle_dec (ln 2) L) as [H | H]; [exact H|].
        exfalso. apply Hno, confident_iff. lra. }
      split; [lra|]. split; [intros _; ring|].
      intros Hsmall. lra.
Qed.

Lemma cross_entropy_batch_value_witness :
  Loss._loss_cross_entropy Loss.default [1; 0] [0] =
    Raise (RuntimeError "Sizes of tensors must match except in dimension 1") /\
  exists v,
    Loss._loss_cross_entropy Loss.default [1; 0; 0.5] [-1; 0; 1] = Ok v /\
    0 < v <= tensor_sum (Loss.raw_losses [1; 0; 0.5] [-1; 0; 1]) / INR 3.
Proof.
  split.
  - apply (cross_entropy_batch_value Loss.default [1; 0] [0]). cbn. lia.
  - destruct (cross_entropy_batch_value Loss.default [1; 0; 0.5] [-1; 0; 1])
      as (_ & _ & Hval).
    destruct Hval as (v & Hv & Hrange & _); [reflexivity | discriminate |].
    exists v. split; [exact Hv | exact Hrange].
Defined.

(** *** The loss layer as a whole *)

Lemma sim_rows_in_range (a : tensor2) :
  forall b, Forall2 (fun x y : tensor1 => length x = length y) a b ->
  exists sims,
    Loss.sim a b = Ok sims /\ length sims = length a /\
    Forall (fun s => -1 <= s <= 1) sims.
Proof.
  intros b Hrows. unfold Loss.sim.
  rewrite broadcast2_same_length by (eapply Forall2_length; eassumption).
  induction Hrows as [|x y a b Hxy Hrows (sims & Hs & Hlen & Hall)].
  - exists []. repeat split; constructor.
  - cbn [combine mapM fst snd].
    destruct (sim_vec_in_range x y Hxy) as (s & Hsim & Hrange).
    rewrite Hsim, Hs. cbn [bind]. exists (s :: sims).
    split; [reflexivity|]. split; [cbn; congruence|]. constructor; assumption.
Qed.

Lemma tensor_sum_le_bound (c : R) (t : tensor1) :
  Forall (fun x => x <= c) t -> tensor_sum t <= INR (length t) * c.
Proof.
  induction 1 as [|x t Hx _ IH].
  - cbn. lra.
  - rewrite length_cons, S_INR. cbn [tensor_sum]. lra.
Qed.

Lemma hinge_monotone (c x y : R) : x <= y -> Rmax 0 (c + x) <= Rmax 0 (c + y).
Proof.
  intros H. unfold Rmax. repeat destruct Rle_dec; lra.
Qed.

(** X8: on a non-empty batch whose label embeddings have the dimension
    of the input embeddings, [forward] returns a loss between 0 and
    [max(0, mu_pos + 1) + max(0, mu_neg + 1)] (2.6 with the default
    margins). *)
Theorem loss_forward_bounded (self : Loss.SingleLabelDotProductLoss)
  (inputs_embed labels_embed_positive labels_embed_negative : tensor2) :
  inputs_embed <> [] ->
  Forall2 (fun x y : tensor1 => length x = length y) inputs_embed labels_embed_positive ->
  Forall2 (fun x y : tensor1 => length x = length y) inputs_embed labels_embed_negative ->
  exists v,
    Loss.forward self inputs_embed labels_embed_positive labels_embed_negative = Ok v /\
    0 <= v <= Rmax 0 (Loss.mu_pos self + 1) + Rmax 0 (Loss.mu_neg self + 1).
Proof.
  intros Hne Hpos Hneg.
  destruct (sim_rows_in_range _ _ Hpos) as (sp & Hsp & Hlp & Hrp).
  destruct (sim_rows_in_range _ _ Hneg) as (sn & Hsn & Hln & Hrn).
  unfold Loss.forward. rewrite Hsp, Hsn. cbn [bind].
  assert (Hsp_ne : sp <> []).
  { destruct sp; [|discriminate]. destruct inputs_embed; [congruence | discriminate]. }
  assert (Hsn_ne : sn <> []).
  { destruct sn; [|discriminate]. destruct inputs_embed; [congruence | discriminate]. }
  destruct (tensor_max_defined sn Hsn_ne) as [m Hm].
  pose proof (neg_term_of_max self sn m Hm) as Hnt.
  rewrite (loss_margin_eq self sp sn _ Hnt Hsp_ne).
  eexists. split; [reflexivity|].
  assert (Hm1 : m <= 1).
  { destruct sn as [|s t]; [congruence|]. cbn in Hm. injection Hm as <-.
    apply max_from_le. inversion Hrn; subst. split; [lra|].
    eapply Forall_impl; [|eassumption]. cbn. intros; lra. }
  pose proof (hinge_monotone (Loss.mu_neg self) m 1 Hm1) as Hnb.
  pose proof (Rmax_l 0 (Loss.mu_neg self + m)) as Hn0.
  set (n := Rmax 0 (Loss.mu_neg self + m)) in *.
  set (bound := Rmax 0 (Loss.mu_pos self + 1) + Rmax 0 (Loss.mu_neg self + 1)).
  pose proof (INR_length_pos sp Hsp_ne) as HB.
  assert (Hterms : Forall (fun x => x <= bound)
                          (map (fun l => l + n) (Loss.pos_term self sp))).
  { unfold Loss.pos_term. rewrite map_map. apply Forall_map.
    eapply Forall_impl; [|exact Hrp]. cbn. intros s Hs.
    assert (Rmax 0 (Loss.mu_pos self - s) <= Rmax 0 (Loss.mu_pos self + 1)).
    { unfold Rmax. repeat destruct Rle_dec; lra. }
    unfold bound. lra. }
  apply tensor_sum_le_bound in Hterms.
  rewrite length_map in Hterms. unfold Loss.pos_term in Hterms at 2.
  rewrite length_map in Hterms.
  pose proof (tensor_sum_nonneg _ (shifted_pos_term_nonneg self sp n Hn0)) as Hlow.
  split.
  - apply Rmult_le_pos; [exact Hlow | left; apply Rinv_0_lt_compat; exact HB].
  - apply Rmult_le_reg_r with (INR (length sp)); [exact HB|].
    unfold Rdiv. rewrite Rmult_assoc, Rinv_l by lra. lra.
Qed.

Lemma loss_forward_bounded_witness :
  exists v,
    Loss.forward Loss.default [[1; 2]; [0; 3]] [[2; 1]; [0; 0]] [[-1; 4]; [5; 5]] = Ok v /\
    0 <= v <= Rmax 0 (0.8 + 1) + Rmax 0 (-0.2 + 1).
Proof.
  apply (loss_forward_bounded Loss.default [[1; 2]; [0; 3]] [[2; 1]; [0; 0]] [[-1; 4]; [5; 5]]).
  - discriminate.
  - repeat constructor.
  - repeat constructor.
Defined.

(** ** Properties of the contrastive loss *)

Lemma tensor_mean_between (lo hi : R) (t : tensor1) :
  t <> [] -> Forall (fun x => lo <= x <= hi) t ->
  exists v, tensor_mean t = Ok v /\ lo <= v <= hi.
Proof.
  intros Hne Hall. destruct t as [|x t]; [congruence|].
  cbn [tensor_mean]. eexists. split; [reflexivity|].
  pose proof (INR_length_pos (x :: t) Hne) as HB.
  assert (Hhi : tensor_sum (x :: t) <= INR (length (x :: t)) * hi).
  { apply tensor_sum_le_bound. eapply Forall_impl; [|exact Hall]. cbn. intros; lra. }
  assert (Hlo : INR (length (x :: t)) * lo <= tensor_sum (x :: t)).
  { clear Hhi HB Hne. induction Hall as [|y l Hy _ IH].
    - cbn. lra.
    - rewrite length_cons, S_INR. cbn [tensor_sum]. lra. }
  split.
  - apply Rmult_le_reg_r with (INR (length (x :: t))); [exact HB|].
    unfold Rdiv. rewrite Rmult_assoc, Rinv_l by lra. lra.
  - apply Rmult_le_reg_r with (INR (length (x :: t))); [exact HB|].
    unfold Rdiv. rewrite Rmult_assoc, Rinv_l by lra. lra.
Qed.

Lemma pairwise_distance_defined (y1 : tensor2) :
  forall y2, Forall2 (fun x y : tensor1 => length x = length y) y1 y2 ->
  exists dist,
    Contrastive.pairwise_distance y1 y2 = Ok dist /\ length dist = length y1 /\
    Forall (fun x => 0 <= x) dist.
Proof.
  intros y2 Hrows. unfold Contrastive.pairwise_distance.
  rewrite broadcast2_same_length by (eapply Forall2_length; eassumption).
  induction Hrows as [|x y a b Hxy Hrows (dist & Hd & Hlen & Hall)].
  - exists []. repeat split; constructor.
  - cbn [combine mapM fst snd]. unfold Contrastive.pairwise_distance_row at 1.
    rewrite broadcast2_same_length by exact Hxy.
    rewrite (mapM_Ok (fun p => fst p - snd p + Contrastive.eps)). cbn [bind].
    rewrite Hd. cbn [bind]. eexists. split; [reflexivity|].
    split; [cbn; congruence|]. constructor; [apply sqrt_pos | exact Hall].
Qed.

(** X9: on a non-empty batch of rows of matching dimensions the
    contrastive loss is defined and non-negative; for [d <> 0] and a
    margin [m >= 0] it is at most [m ^ 2], and it is 0 when every distance
    reaches the margin. *)
Theorem contrastive_loss_range (self : Contrastive.ContrastiveLoss)
  (y1 y2 : tensor2) (d : Z) :
  y1 <> [] ->
  Forall2 (fun x y : tensor1 => length x = length y) y1 y2 ->
  exists v dist,
    Contrastive.forward self y1 y2 d = Ok v /\
    Contrastive.pairwise_distance y1 y2 = Ok dist /\
    0 <= v /\
    (d <> 0%Z -> 0 <= Contrastive.m self -> v <= Contrastive.m self ^ 2) /\
    (d <> 0%Z -> Forall (fun x => Contrastive.m self <= x) dist -> v = 0).
Proof.
  intros Hne Hrows.
  destruct (pairwise_distance_defined y1 y2 Hrows) as (dist & Hd & Hlen & Hpos).
  assert (Hdist_ne : dist <> []).
  { destruct dist; [|discriminate]. destruct y1; [congruence | discriminate]. }
  unfold Contrastive.forward. rewrite Hd. cbn [bind].
  destruct (d =? 0)%Z eqn:Hz.
  - apply Z.eqb_eq in Hz.
    destruct (tensor_mean_between 0 (tensor_sum (map (fun x => x ^ 2) dist))
                (map (fun x => x ^ 2) dist)) as (v & Hv & Hrange).
    + destruct dist; [congruence | discriminate].
    + apply Forall_map. clear. induction dist as [|x t IH]; constructor.
      * cbn [map tensor_sum].
        assert (0 <= tensor_sum (map (fun x => x ^ 2) t)).
        { apply tensor_sum_nonneg, Forall_map, Forall_forall. intros; apply pow2_ge_0. }
        pose proof (pow2_ge_0 x). lra.
      * eapply Forall_impl; [|exact IH]. cbn. intros a [Ha Hb].
        pose proof (pow2_ge_0 x). cbn [map tensor_sum]. lra.
    + exists v, dist. repeat split; try assumption; try lra; intros; congruence.
  - apply Z.eqb_neq in Hz. rewrite !map_map.
    set (f := fun x => Rmax (Contrastive.m self - x) 0 ^ 2).
    assert (Hf0 : forall x, 0 <= f x) by (intros; apply pow2_ge_0).
    destruct (tensor_mean_between 0 (Rmax (Contrastive.m self ^ 2) 0) (map f dist))
      as (v & Hv & Hrange).
    + destruct dist; [congruence | discriminate].
    + apply Forall_map. eapply Forall_impl; [|exact Hpos]. cbn. intros x Hx.
      split; [apply Hf0|]. unfold f.
      destruct (Rle_dec (Contrastive.m self - x) 0).
      * rewrite (Rmax_right (Contrastive.m self - x) 0) by lra.
        eapply Rle_trans; [|apply (Rmax_r (Contrastive.m self ^ 2) 0)]. lra.
      * rewrite (Rmax_left (Contrastive.m self - x) 0) by lra.
        eapply Rle_trans; [|apply Rmax_l]. nra.
    + exists v, dist. split; [exact Hv|]. split; [reflexivity|].
      split; [lra|]. split.
      * intros _ Hm. rewrite Rmax_left in Hrange by apply pow2_ge_0. lra.
      * intros _ Hfar.
        destruct (tensor_mean_between 0 0 (map f dist)) as (v' & Hv' & Hrange').
        -- destruct dist; [congruence | discriminate].
        -- apply Forall_map. eapply Forall_impl; [|exact Hfar]. cbn. intros x Hx.
           unfold f. rewrite Rmax_right by lra. lra.
        -- rewrite Hv in Hv'. injection Hv' as <-. lra.
Qed.

Lemma contrastive_loss_range_witness :
  exists v dist,
    Contrastive.forward Contrastive.default [[1; 2]; [0; 0]] [[1; 0]; [3; 4]] 1 = Ok v /\
    Contrastive.pairwise_distance [[1; 2]; [0; 0]] [[1; 0]; [3; 4]] = Ok dist /\
    0 <= v /\ v <= 2 ^ 2.
Proof.
  destruct (contrastive_loss_range Contrastive.default [[1; 2]; [0; 0]] [[1; 0]; [3; 4]] 1)
    as (v & dist & Hv & Hd & H0 & Hm & _).
  - discriminate.
  - repeat constructor.
  - exists v, dist. repeat split; try assumption.
    apply Hm; [discriminate | cbn; lra].
Defined.

Lemma squared_gap_of_equal_rows (row : tensor1) :
  tensor_sum (map (fun x => x * x)
                  (map (fun p => fst p - snd p + Contrastive.eps) (combine row row))) =
  INR (length row) * (Contrastive.eps * Contrastive.eps).
Proof.
  induction row as [|x row IH].
  - cbn. ring.
  - rewrite length_cons, S_INR. cbn [combine map tensor_sum fst snd]. rewrite IH. ring.
Qed.

Lemma pairwise_distance_row_self (row : tensor1) :
  Contrastive.pairwise_distance_row row row =
  Ok (sqrt (INR (length row) * (Contrastive.eps * Contrastive.eps))).
Proof.
  unfold Contrastive.pairwise_distance_row.
  rewrite broadcast2_same_length by reflexivity.
  rewrite (mapM_Ok (fun p => fst p - snd p + Contrastive.eps)). cbn [bind].
  rewrite squared_gap_of_equal_rows. reflexivity.
Qed.

Lemma tensor_mean_constant (c : R) (t : tensor1) :
  t <> [] -> Forall (fun x => x = c) t -> tensor_mean t = Ok c.
Proof.
  intros Hne Hall.
  destruct (tensor_mean_between c c t Hne) as (v & Hv & Hrange).
  - eapply Forall_impl; [|exact Hall]. cbn. intros; lra.
  - rewrite Hv. f_equal. lra.
Qed.

(** X10: the contrastive loss of a batch against itself, with [d = 0], is
    not 0: [pairwise_distance] adds its [eps = 1e-6] to every coordinate
    of the difference, so the loss is [k * eps ^ 2] for rows of dimension
    [k]. *)
Theorem contrastive_identical_inputs (self : Contrastive.ContrastiveLoss)
  (y : tensor2) (k : nat) :
  y <> [] ->
  Forall (fun row => length row = k) y ->
  Contrastive.forward self y y 0 = Ok (INR k * Contrastive.eps ^ 2).
Proof.
  intros Hne Hrows.
  assert (Hd : Contrastive.pairwise_distance y y =
               Ok (map (fun _ => sqrt (INR k * (Contrastive.eps * Contrastive.eps))) y)).
  { unfold Contrastive.pairwise_distance.
    rewrite broadcast2_same_length by reflexivity.
    clear Hne. induction Hrows as [|row y Hrow _ IH]; [reflexivity|].
    cbn [combine mapM fst snd map].
    rewrite pairwise_distance_row_self, Hrow, IH. reflexivity. }
  unfold Contrastive.forward. rewrite Hd. cbn [bind Z.eqb].
  apply tensor_mean_constant.
  - destruct y; [congruence | discriminate].
  - rewrite map_map. apply Forall_map, Forall_forall. intros row _.
    cbn [pow]. rewrite Rmult_1_r, sqrt_sqrt; [ring|].
    apply Rmult_le_pos; [apply pos_INR | apply Rle_0_sqr].
Qed.

Lemma contrastive_identical_inputs_witness :
  Contrastive.forward Contrastive.default [[1; 2; 3]; [4; 5; 6]] [[1; 2; 3]; [4; 5; 6]] 0 =
  Ok (INR 3 * Contrastive.eps ^ 2).
Proof.
  apply contrastive_identical_inputs; [discriminate | repeat constructor].
Defined.

(** ** Further properties of the joint head *)

(** *** The negative sampler *)

Lemma mapMi_from_Ok_iff {A B : Type} (f : nat -> A -> result B) (l : list A) :
  forall k,
  (exists out, mapMi_from k f l = Ok out) <->
  (forall i a, nth_error l i = Some a -> exists b, f (k + i)%nat a = Ok b).
Proof.
  intros k. split.
  - intros [out H] i a Hi.
    destruct (mapMi_from_inv f l k out H) as [_ Hnth].
    destruct (Hnth i a Hi) as (b & Hb & _). eauto.
  - apply mapMi_from_defined.
Qed.

Lemma neg_candidates_length (n : nat) (sample : Z) :
  length (Classifier.neg_candidates n sample) =
  if ((0 <=? sample) && (sample <? Z.of_nat n))%Z then (n - 1)%nat else n.
Proof.
  unfold Classifier.neg_candidates. induction n as [|n IH].
  - cbn. destruct ((0 <=? sample) && (sample <? 0))%Z; reflexivity.
  - rewrite seq_S, map_app, filter_app, length_app, IH. cbn [Nat.add map filter].
    destruct (Z.eqb_spec (Z.of_nat n) sample) as [Heq | Hne]; cbn [negb length].
    + replace ((0 <=? sample) && (sample <? Z.of_nat n))%Z with false
        by (symmetry; apply andb_false_iff; right; apply Z.ltb_ge; lia).
      replace ((0 <=? sample) && (sample <? Z.of_nat (S n)))%Z with true
        by (symmetry; apply andb_true_iff; split; [apply Z.leb_le | apply Z.ltb_lt]; lia).
      lia.
    + destruct (Z.leb_spec 0 sample) as [H0 | H0]; cbn [andb]; [|lia].
      destruct (Z.ltb_spec sample (Z.of_nat n)) as [H1 | H1].
      * replace (sample <? Z.of_nat (S n))%Z with true by (symmetry; apply Z.ltb_lt; lia).
        lia.
      * replace (sample <? Z.of_nat (S n))%Z with false by (symmetry; apply Z.ltb_ge; lia).
        lia.
Qed.

(** X11: [random.choice] draws among [num_intent - 1] candidates when the
    gold label is an intent id and among all [num_intent] ids when it is
    not (a reserved slot of the embedding table, a negative label); the
    candidates are empty exactly when there is no intent, or one intent
    that is the gold label. *)
Theorem neg_candidates_count (num_intent : nat) (sample : Z) :
  length (Classifier.neg_candidates num_intent sample) =
    (if ((0 <=? sample) && (sample <? Z.of_nat num_intent))%Z
     then (num_intent - 1)%nat else num_intent) /\
  (Classifier.neg_candidates num_intent sample = [] <->
   num_intent = 0%nat \/ (num_intent = 1%nat /\ sample = 0%Z)).
Proof.
  split; [apply neg_candidates_length|].
  rewrite <- length_zero_iff_nil, neg_candidates_length.
  destruct (Z.leb_spec 0 sample) as [H0 | H0]; cbn [andb].
  - destruct (Z.ltb_spec sample (Z.of_nat num_intent)) as [H1 | H1]; lia.
  - lia.
Qed.

(** X12: every intent id other than the gold label can be drawn: the
    sampler excludes nothing else. *)
Theorem neg_choice_reaches_every_other_intent (num_intent : nat) (sample idx : Z) :
  (0 <= idx < Z.of_nat num_intent)%Z -> idx <> sample ->
  exists draw, Classifier.neg_choice draw num_intent sample = Ok idx.
Proof.
  intros Hr Hne.
  assert (Hin : In idx (Classifier.neg_candidates num_intent sample)).
  { apply neg_candidates_In. split; assumption. }
  apply In_nth_error in Hin as [i Hi].
  exists i. unfold Classifier.neg_choice, Classifier.choice.
  assert (Hlt : (i < length (Classifier.neg_candidates num_intent sample))%nat).
  { apply nth_error_Some. congruence. }
  rewrite Nat.mod_small by exact Hlt. rewrite Hi. reflexivity.
Qed.

Lemma neg_choice_reaches_every_other_intent_witness :
  exists draw, Classifier.neg_choice draw 5 2 = Ok 4%Z.
Proof.
  apply neg_choice_reaches_every_other_intent; lia.
Defined.

(** X13: given an embedding matrix with a row for every intent, the
    sampler returns exactly when the batch is not empty and every example
    has a candidate. *)
Theorem neg_sample_returns_iff (draws : nat -> nat) (num_intent : nat)
  (intent_labels : list Z) (embed_all_intent : tensor2) :
  (num_intent <= length embed_all_intent)%nat ->
  ((exists out,
      Classifier._neg_sample draws num_intent intent_labels embed_all_intent = Ok out) <->
   intent_labels <> [] /\
   Forall (fun sample => Classifier.neg_candidates num_intent sample <> []) intent_labels).
Proof.
  intros HE. unfold Classifier._neg_sample, mapMi. split.
  - intros [out H].
    destruct (mapMi_from 0 _ intent_labels) as [rows|e] eqn:Hloop; [|discriminate].
    cbn [bind] in H.
    pose proof (mapMi_from_inv _ _ _ _ Hloop) as [Hlen Hnth].
    split.
    + intros ->. destruct rows; [discriminate | discriminate].
    + apply Forall_forall. intros sample Hin Hnil.
      apply In_nth_error in Hin as [i Hi].
      destruct (Hnth i sample Hi) as (row & Hrow & _).
      unfold Classifier.neg_choice, Classifier.choice in Hrow. rewrite Hnil in Hrow.
      destruct (draws (0 + i)%nat mod length (@nil Z))%nat; discriminate.
  - intros [Hne Hall].
    destruct (mapMi_from_defined
                (fun i sample =>
                   label <- Classifier.neg_choice (draws i) num_intent sample ;;
                   Classifier.tensor_index embed_all_intent label)
                intent_labels 0%nat) as [rows Hloop].
    + intros i sample Hi. cbn [Nat.add].
      rewrite Forall_forall in Hall.
      destruct (choice_defined (draws i) _ (Hall sample (nth_error_In _ _ Hi))) as [idx Hc].
      unfold Classifier.neg_choice. rewrite Hc. cbn [bind].
      pose proof (neg_choice_sound _ _ _ _ Hc) as [Hr _].
      destruct (nth_error embed_all_intent (Z.to_nat idx)) as [row|] eqn:Hrow.
      * exists row. apply tensor_index_nonneg; [lia | assumption].
      * apply nth_error_None in Hrow. lia.
    + rewrite Hloop. cbn [bind].
      pose proof (mapMi_from_inv _ _ _ _ Hloop) as [Hlen _].
      destruct rows as [|r rs]; [|cbn; eauto].
      destruct intent_labels; [congruence | discriminate].
Qed.

Lemma neg_sample_returns_iff_witness :
  exists out,
    Classifier._neg_sample (fun i => (7 * i)%nat) 2 [0%Z; 1%Z; 3%Z] [[1]; [2]] = Ok out.
Proof.
  apply (neg_sample_returns_iff (fun i => (7 * i)%nat) 2 [0%Z; 1%Z; 3%Z] [[1]; [2]]).
  - cbn. lia.
  - split; [discriminate|]. repeat constructor; discriminate.
Defined.

(** *** The intent embeddings and the decision surface *)

Lemma nth_error_map_seq {A : Type} (f : nat -> A) (n i : nat) :
  (i < n)%nat -> nth_error (map f (seq 0 n)) i = Some (f i).
Proof.
  intros Hi. rewrite nth_error_map, nth_error_seq.
  destruct (Nat.ltb_spec i n) as [_ | H]; [reflexivity | lia].
Qed.

(** X14: [embed_all_intent] returns one row per intent, whatever its
    argument [num_intent]; row [l] is the projected embedding that
    [forward] computes for the gold label [l]. *)
Theorem embed_all_intent_rows (self : Classifier.DIETClassifier) (num_intent : nat) :
  length (Classifier.embed_all_intent self num_intent) = Classifier.num_intents self /\
  (forall label : Z,
     (0 <= label < Z.of_nat (Classifier.num_intents self))%Z ->
     exists w,
       Classifier.embedding (Classifier.num_intents self + 2)
         (Classifier.intents_label_embed self) label = Ok w /\
       Classifier.tensor_index (Classifier.embed_all_intent self num_intent) label =
         Ok (Classifier.intents_label_dense self w)).
Proof.
  unfold Classifier.embed_all_intent. split.
  - rewrite length_map, length_seq. reflexivity.
  - intros label Hr. eexists. split.
    + unfold Classifier.embedding.
      replace (0 <=? label)%Z with true by (symmetry; apply Z.leb_le; lia).
      replace (label <? Z.of_nat (Classifier.num_intents self + 2))%Z with true
        by (symmetry; apply Z.ltb_lt; lia).
      reflexivity.
    + apply tensor_index_nonneg; [lia|].
      apply (nth_error_map_seq
               (fun i => Classifier.intents_label_dense self
                           (Classifier.intents_label_embed self i))).
      lia.
Qed.

Lemma embed_all_intent_rows_witness :
  exists w,
    Classifier.embedding (2 + 2)
      (Classifier.intents_label_embed (Fixture.model false 0.1 2)) 1 = Ok w /\
    Classifier.tensor_index (Classifier.embed_all_intent (Fixture.model false 0.1 2) 7) 1 =
      Ok (Classifier.intents_label_dense (Fixture.model false 0.1 2) w).
Proof.
  destruct (embed_all_intent_rows (Fixture.model false 0.1 2) 7) as [_ H].
  apply (H 1%Z). cbn. lia.
Defined.

Lemma sim_vec_against_rows (v : tensor1) (all : tensor2) :
  Forall (fun a => length a = length v) all ->
  exists row,
    mapM (fun a => Loss.sim_vec v a) all = Ok row /\
    Forall2 (fun a s => Loss.sim_vec v a = Ok s /\ -1 <= s <= 1) all row.
Proof.
  induction 1 as [|a all Ha _ (row & Hrow & Hall)].
  - exists []. split; [reflexivity | constructor].
  - destruct (sim_vec_in_range v a (eq_sym Ha)) as (s & Hs & Hrange).
    exists (s :: row). cbn [mapM]. rewrite Hs, Hrow. cbn [bind].
    split; [reflexivity | constructor; [split; assumption | exact Hall]].
Qed.

Lemma sim_one_against_all (v : tensor1) (all : tensor2) :
  Forall (fun a => length a = length v) all ->
  exists row,
    Loss.sim [v] all = Ok row /\
    Forall2 (fun a s => Loss.sim_vec v a = Ok s /\ -1 <= s <= 1) all row.
Proof.
  intros Hall. destruct (sim_vec_against_rows v all Hall) as (row & Hrow & Hprop).
  exists row. split; [|exact Hprop].
  unfold Loss.sim, broadcast2.
  destruct all as [|a [|a' all]]; cbn [length Nat.eqb combine fst snd mapM] in *;
    exact Hrow.
Qed.

(** X15: [logit_intent] raises on an empty batch; on a batch of pooled
    vectors whose dimension is that of the intent embeddings it returns,
    for every example, one score per intent: the cosine of the pooled
    vector and that intent's embedding, between -1 and 1. *)
Theorem logit_intent_surface (embed_out_intents : tensor3) (embed_all_intent : tensor2)
  (k : nat) :
  Classifier.logit_intent [] embed_all_intent =
    Raise (RuntimeError "stack expects a non-empty TensorList") /\
  (embed_out_intents <> [] ->
   Forall (fun m => exists v, m = [v] /\ length v = k) embed_out_intents ->
   Forall (fun a => length a = k) embed_all_intent ->
   exists intent_logits,
     Classifier.logit_intent embed_out_intents embed_all_intent = Ok intent_logits /\
     Forall2 (fun m row =>
                exists v, m = [v] /\
                  Forall2 (fun a s => Loss.sim_vec v a = Ok s /\ -1 <= s <= 1)
                          embed_all_intent row)
             embed_out_intents intent_logits).
Proof.
  split; [reflexivity|].
  intros Hne Hout Hall. unfold Classifier.logit_intent.
  assert (Hloop : exists rows,
             mapM (fun out_intent => Loss.sim out_intent embed_all_intent)
                  embed_out_intents = Ok rows /\
             Forall2 (fun m row =>
                        exists v, m = [v] /\
                          Forall2 (fun a s => Loss.sim_vec v a = Ok s /\ -1 <= s <= 1)
                                  embed_all_intent row)
                     embed_out_intents rows).
  { clear Hne. induction Hout as [|m out (v & -> & Hv) _ (rows & Hrows & Hprop)].
    - exists []. split; [reflexivity | constructor].
    - destruct (sim_one_against_all v embed_all_intent) as (row & Hrow & Hr).
      { eapply Forall_impl; [|exact Hall]. cbn. intros; congruence. }
      exists (row :: rows). cbn [mapM]. rewrite Hrow, Hrows. cbn [bind].
      split; [reflexivity|]. constructor; [exists v; split; [reflexivity | exact Hr] | exact Hprop]. }
  destruct Hloop as (rows & Hrows & Hprop). rewrite Hrows. cbn [bind].
  exists rows. split; [|exact Hprop].
  destruct rows; [|reflexivity]. inversion Hprop; subst. congruence.
Qed.

Lemma logit_intent_surface_witness :
  exists intent_logits,
    Classifier.logit_intent [[[1; 2]]; [[0; -1]]] [[1; 0]; [0; 1]; [3; 4]] = Ok intent_logits /\
    Forall2 (fun m row =>
               exists v, m = [v] /\
                 Forall2 (fun a s => Loss.sim_vec v a = Ok s /\ -1 <= s <= 1)
                         [[1; 0]; [0; 1]; [3; 4]] row)
            [[[1; 2]]; [[0; -1]]] intent_logits.
Proof.
  apply (logit_intent_surface [[[1; 2]]; [[0; -1]]] [[1; 0]; [0; 1]; [3; 4]] 2).
  - discriminate.
  - repeat constructor; eexists; split; reflexivity.
  - repeat constructor.
Defined.

(** *** Dropout *)

Lemma mapi_from_Forall2 {A B : Type} (P : A -> B -> Prop) (f : nat -> A -> B) (l : list A) :
  (forall i a, P a (f i a)) -> forall k, Forall2 P l (Classifier.mapi_from k f l).
Proof.
  intros H. induction l as [|a l IH]; intros k; cbn; constructor; [apply H | apply IH].
Qed.

Lemma mapi_from_id {A : Type} (f : nat -> A -> A) (l : list A) :
  (forall i a, f i a = a) -> forall k, Classifier.mapi_from k f l = l.
Proof.
  intros H. induction l as [|a l IH]; intros k; cbn; [reflexivity|].
  rewrite H, IH. reflexivity.
Qed.

(** Dropout keeps the shape of its input; in training mode every entry
    of the result is 0 or the input entry divided by [1 - p]; with
    [p = 0] and draws below 1 it changes nothing, as in evaluation mode. *)
Lemma dropout_entries (training : bool) (p : R) (noise : nat -> nat -> nat -> R)
  (x : tensor3) :
  Forall2 (Forall2 (Forall2 (fun v w => w = v \/ (training = true /\ (w = 0 \/ w = v / (1 - p))))))
          x (Classifier.dropout training p noise x) /\
  (training = false -> Classifier.dropout training p noise x = x) /\
  (p = 0 -> (forall b t h, noise b t h < 1) -> Classifier.dropout training p noise x = x).
Proof.
  split; [|split].
  - unfold Classifier.dropout. destruct training.
    + unfold Classifier.mapi.
      apply mapi_from_Forall2. intros b m.
      apply mapi_from_Forall2. intros t row.
      apply mapi_from_Forall2. intros h v.
      right. split; [reflexivity|].
      destruct (Rlt_dec (noise b t h) (1 - p)); [right | left]; reflexivity.
    + clear. induction x as [|m x IH]; constructor; [|exact IH].
      induction m as [|row m IHm]; constructor; [|exact IHm].
      induction row as [|v row IHr]; constructor; [left; reflexivity | exact IHr].
  - intros ->. reflexivity.
  - intros -> Hnoise. unfold Classifier.dropout. destruct training; [|reflexivity].
    unfold Classifier.mapi.
    apply mapi_from_id. intros b m.
    apply mapi_from_id. intros t row.
    apply mapi_from_id. intros h v.
    destruct (Rlt_dec (noise b t h) (1 - 0)) as [_ | Hn].
    + field.
    + exfalso. apply Hn. specialize (Hnoise b t h). lra.
Qed.

(** *** The forward pass *)

Section ForwardSlices.
Import Classifier.

Variable self : DIETClassifier.
Variable args : forward_args.
Variable rng : randomness.

(** X16: when dropout is inactive (evaluation mode, or [p = 0]),
    [forward] splits the tokens of every example without losing or
    repeating one: the first token is the pooled vector of the intent
    path, the others are the sequence of the entity path. *)
Theorem forward_token_split :
  training self = false \/
  (hidden_dropout_prob self = 0 /\
   forall b t h, pooled_noise rng b t h < 1 /\ sequence_noise rng b t h < 1) ->
  let tokens := last_hidden_state (outputs_data (outputs_of self args)) in
  length (pooled_output self args rng) = length tokens /\
  length (sequence_output self args rng) = length tokens /\
  forall i example, nth_error tokens i = Some example ->
    exists pooled sequence,
      nth_error (pooled_output self args rng) i = Some pooled /\
      nth_error (sequence_output self args rng) i = Some sequence /\
      pooled = firstn 1 example /\
      length sequence = (length example - 1)%nat /\
      pooled ++ sequence = example.
Proof.
  intros Hoff tokens.
  assert (Hp : pooled_output self args rng = map (firstn 1) tokens).
  { unfold pooled_output. fold tokens.
    destruct (dropout_entries (training self) (hidden_dropout_prob self)
                (pooled_noise rng) (map (firstn 1) tokens)) as (_ & Heval & Hzero).
    destruct Hoff as [Hev | [Hp Hn]]; [apply Heval, Hev | apply Hzero, Hn; exact Hp]. }
  assert (Hs : sequence_output self args rng = map (skipn 1) tokens).
  { unfold sequence_output. fold tokens.
    destruct (dropout_entries (training self) (hidden_dropout_prob self)
                (sequence_noise rng) (map (skipn 1) tokens)) as (_ & Heval & Hzero).
    destruct Hoff as [Hev | [Hp' Hn]]; [apply Heval, Hev | apply Hzero, Hn; exact Hp']. }
  rewrite Hp, Hs, !length_map. split; [reflexivity|]. split; [reflexivity|].
  intros i example Hi.
  exists (firstn 1 example), (skipn 1 example).
  rewrite !nth_error_map, Hi. cbn [option_map].
  repeat split; [apply length_skipn | apply firstn_skipn].
Qed.

End ForwardSlices.

Lemma forward_token_split_witness :
  exists pooled sequence,
    nth_error (Classifier.pooled_output (Fixture.model false 0.1 2)
                 (Fixture.labelled None) (Fixture.constant_rng 0 0)) 0 = Some pooled /\
    nth_error (Classifier.sequence_output (Fixture.model false 0.1 2)
                 (Fixture.labelled None) (Fixture.constant_rng 0 0)) 0 = Some sequence /\
    pooled ++ sequence = [[1]; [1]].
Proof.
  destruct (forward_token_split (Fixture.model false 0.1 2) (Fixture.labelled None)
              (Fixture.constant_rng 0 0)) as (_ & _ & H).
  - left. reflexivity.
  - destruct (H 0%nat [[1]; [1]] eq_refl) as (pooled & sequence & Hp & Hs & _ & _ & Happ).
    exists pooled, sequence. repeat split; assumption.
Defined.

Lemma entities_loss_presence self args x el :
  Classifier.entities_loss_of self args x = Ok el ->
  (el = None <-> Classifier.entities_labels args = None).
Proof.
  unfold Classifier.entities_loss_of.
  destruct (Classifier.entities_labels args) as [labels|].
  - destruct (Classifier.mask_bool _); cbn [bind]; [|discriminate].
    intros [= <-]. split; discriminate.
  - intros [= <-]. split; reflexivity.
Qed.

Lemma intent_branch_presence self args rng pooled lg il :
  Classifier.intent_branch self args rng pooled = Ok (lg, il) ->
  (il = None <-> Classifier.intent_labels args = None).
Proof.
  unfold Classifier.intent_branch.
  destruct (Classifier.use_dot_product self).
  - destruct (Classifier.logit_intent _ _); cbn [bind]; [|discriminate].
    destruct (Classifier.intent_labels args) as [labels|].
    + destruct (mapM _ labels); cbn [bind]; [|discriminate].
      destruct (Classifier._neg_sample _ _ _ _); cbn [bind]; [|discriminate].
      destruct (Loss.forward _ _ _ _); cbn [bind]; [|discriminate].
      intros [= _ <-]. split; discriminate.
    + cbn [bind]. intros [= _ <-]. split; reflexivity.
  - destruct (Classifier.intent_labels args) as [labels|].
    + destruct (Nat.eqb (Classifier.num_intents self) 1).
      * destruct (Classifier.MSELoss _ _); cbn [bind]; [|discriminate].
        intros [= _ <-]. split; discriminate.
      * destruct (Classifier.CrossEntropyLoss _ _); cbn [bind]; [|discriminate].
        intros [= _ <-]. split; discriminate.
    + cbn [bind]. intros [= _ <-]. split; reflexivity.
Qed.

(** X17: in the dictionary that [forward] returns, each loss is present
    exactly when its labels were supplied: [entities_loss] with the gold
    entity tags alone, [intent_loss] with the gold intent labels alone,
    and [loss] only with both. *)
Theorem forward_loss_presence (self : Classifier.DIETClassifier)
  (args : Classifier.forward_args) (rng : Classifier.randomness)
  (d : Classifier.output_dict) :
  Classifier.forward self args rng = Ok (Classifier.DictOutput d) ->
  (Classifier.entities_loss d = None <-> Classifier.entities_labels args = None) /\
  (Classifier.intent_loss d = None <-> Classifier.intent_labels args = None) /\
  (Classifier.loss d = None <->
   Classifier.entities_labels args = None \/ Classifier.intent_labels args = None).
Proof.
  intros H.
  apply forward_inv in H as (el & lg & il & l & Hel & Hbr & Hl & _ & Hshape).
  destruct Hshape as [(_ & _ & items & Hitems) | (_ & d' & Hd & <- & <- & <- & _)];
    [discriminate|].
  injection Hd as <-.
  apply entities_loss_presence in Hel. apply intent_branch_presence in Hbr.
  split; [exact Hel|]. split; [exact Hbr|].
  apply joint_loss_inv in Hl as [(He & Hi & e & i & _ & _ & Hloss) | (Hnone & Hloss)].
  - rewrite Hloss. split; [discriminate | intros [Hn | Hn]; contradiction].
  - rewrite Hloss. split; [intros _; exact Hnone | reflexivity].
Qed.

Lemma fixture_eval_entities_only (p : R) (rng : Classifier.randomness) :
  Classifier.forward (Fixture.model false p 2)
    {| Classifier.bert_inputs := Fixture.tokens;
       Classifier.intent_labels := None;
       Classifier.entities_labels := Some [[0%Z]];
       Classifier.return_dict := Some true |} rng =
  Ok (Classifier.DictOutput
        {| Classifier.entities_loss := Some 1;
           Classifier.intent_loss := None;
           Classifier.loss := None;
           Classifier.logits := ([[0%nat]], Classifier.SimilarityLogits [[1; -1]]);
           Classifier.dict_hidden_states := None;
           Classifier.dict_attentions := None |}).
Proof.
  unfold Classifier.forward.
  unfold Classifier.entities_loss_of at 1. cbn [Classifier.entities_labels
    Classifier.bert_inputs Fixture.tokens Classifier.attention_mask Classifier.mask_bool bind].
  rewrite fixture_pooled_output. cbn [Classifier.dropout].
  unfold Classifier.intent_branch.
  cbn [Fixture.model Classifier.use_dot_product Classifier.intents_output_embed
       Classifier.num_intents map Classifier.intent_labels].
  rewrite fixture_all_intent, (fixture_logits_kept 1 eps_le_1). cbn [bind fst snd].
  cbn. replace (- (-1)) with 1 by lra. reflexivity.
Qed.

Lemma forward_loss_presence_witness :
  let args := {| Classifier.bert_inputs := Fixture.tokens;
                 Classifier.intent_labels := None;
                 Classifier.entities_labels := Some [[0%Z]];
                 Classifier.return_dict := Some true |} in
  let d := {| Classifier.entities_loss := Some 1;
              Classifier.intent_loss := None;
              Classifier.loss := None;
              Classifier.logits := ([[0%nat]], Classifier.SimilarityLogits [[1; -1]]);
              Classifier.dict_hidden_states := None;
              Classifier.dict_attentions := None |} in
  (Classifier.entities_loss d = None <-> Classifier.entities_labels args = None) /\
  (Classifier.intent_loss d = None <-> Classifier.intent_labels args = None) /\
  (Classifier.loss d = None <->
   Classifier.entities_labels args = None \/ Classifier.intent_labels args = None).
Proof.
  intros args d.
  apply (forward_loss_presence (Fixture.model false 0.1 2) args (Fixture.constant_rng 0 0) d).
  apply fixture_eval_entities_only.
Defined.

(** X18: the tuple that [forward] returns (evaluation mode,
    [return_dict] false) starts with the joint loss twice when both label
    sets were supplied, and with a single [None] otherwise; what follows
    is [outputs[2:]] of the encoder. *)
Theorem forward_tuple_layout (self : Classifier.DIETClassifier)
  (args : Classifier.forward_args) (rng : Classifier.randomness)
  (items : list Classifier.tuple_item) :
  Classifier.forward self args rng = Ok (Classifier.TupleOutput items) ->
  let tail := map Classifier.ExtraItem
                  (Classifier.rest (Classifier.bert self (Classifier.bert_inputs args))) in
  (Classifier.entities_labels args <> None -> Classifier.intent_labels args <> None ->
   exists v, items = Classifier.LossItem (Some v) :: Classifier.LossItem (Some v) :: tail) /\
  (Classifier.entities_labels args = None \/ Classifier.intent_labels args = None ->
   items = Classifier.LossItem None :: tail).
Proof.
  intros H tail.
  pose proof H as Hinv.
  apply forward_inv in Hinv as (el & lg & il & l & Hel & Hbr & Hl & _ & _).
  unfold Classifier.forward in H. rewrite Hel in H. cbn [bind] in H.
  rewrite Hbr in H. cbn [bind fst snd] in H. rewrite Hl in H. cbn [bind] in H.
  assert (Hdata : Classifier.outputs_data (Classifier.outputs_of self args) =
                  Classifier.bert self (Classifier.bert_inputs args)).
  { unfold Classifier.outputs_of. destruct (Classifier.resolved_return_dict self args);
      reflexivity. }
  rewrite Hdata in H. fold tail in H.
  pose proof (entities_loss_presence _ _ _ _ Hel) as Pe.
  pose proof (intent_branch_presence _ _ _ _ _ _ Hbr) as Pi.
  destruct (negb (if Classifier.training self then true
                  else Classifier.resolved_return_dict self args)).
  - injection H as <-.
    apply joint_loss_inv in Hl as [(He & Hi & e & i & -> & -> & ->) | (Hnone & ->)].
    + split.
      * intros _ _. exists (e * 0.5 + i * 0.5). reflexivity.
      * intros [Hn | Hn]; contradiction.
    + split.
      * intros He Hi. destruct Hnone; contradiction.
      * intros _.
        destruct el as [e|]; destruct il as [i|]; cbn [Classifier.is_not_None andb];
          try reflexivity.
        exfalso. destruct Hnone as [Hn | Hn]; [apply Pe in Hn | apply Pi in Hn]; discriminate.
  - destruct (Classifier.getattr _ _ Classifier.hidden_states); cbn [bind] in H; [|discriminate].
    destruct (Classifier.getattr _ _ Classifier.attentions); cbn [bind] in H; discriminate.
Qed.

Lemma forward_tuple_layout_witness :
  exists v, Fixture.labelled_tuple =
            Classifier.LossItem (Some v) :: Classifier.LossItem (Some v) ::
            map Classifier.ExtraItem
                (Classifier.rest (Classifier.bert (Fixture.model false 0.1 2)
                                    (Classifier.bert_inputs (Fixture.labelled (Some false))))).
Proof.
  apply (forward_tuple_layout (Fixture.model false 0.1 2) (Fixture.labelled (Some false))
           (Fixture.constant_rng 0 0) Fixture.labelled_tuple
           (fixture_eval_tuple 0.1 (Fixture.constant_rng 0 0)));
    discriminate.
Defined.

Lemma intent_branch_without_labels self args rng pooled lg il :
  Classifier.intent_branch self args rng pooled = Ok (lg, il) ->
  Classifier.intent_branch self (without_labels args) rng pooled = Ok (lg, None).
Proof.
  unfold Classifier.intent_branch. cbn [without_labels Classifier.intent_labels].
  destruct (Classifier.use_dot_product self).
  - destruct (Classifier.logit_intent _ _) as [x|]; cbn [bind]; [|discriminate].
    destruct (Classifier.intent_labels args) as [labels|].
    + destruct (mapM _ labels); cbn [bind]; [|discriminate].
      destruct (Classifier._neg_sample _ _ _ _); cbn [bind]; [|discriminate].
      destruct (Loss.forward _ _ _ _); cbn [bind]; [|discriminate].
      intros [= <- _]. reflexivity.
    + cbn [bind]. intros [= <- _]. reflexivity.
  - destruct (Classifier.intent_labels args) as [labels|].
    + destruct (Nat.eqb (Classifier.num_intents self) 1).
      * destruct (Classifier.MSELoss _ _); cbn [bind]; [|discriminate].
        intros [= <- _]. reflexivity.
      * destruct (Classifier.CrossEntropyLoss _ _); cbn [bind]; [|discriminate].
        intros [= <- _]. reflexivity.
    + cbn [bind]. intros [= <- _]. reflexivity.
Qed.

(** X19: the decoded entity paths and the intent logits do not depend on
    the labels: when a call returns a dictionary, the same call without
    labels (same dropout draws) returns the same [logits],
    [hidden_states] and [attentions], with no loss. *)
Theorem forward_logits_ignore_labels (self : Classifier.DIETClassifier)
  (args : Classifier.forward_args) (rng : Classifier.randomness)
  (d : Classifier.output_dict) :
  Classifier.forward self args rng = Ok (Classifier.DictOutput d) ->
  Classifier.forward self (without_labels args) rng =
  Ok (Classifier.DictOutput
        {| Classifier.entities_loss := None;
           Classifier.intent_loss := None;
           Classifier.loss := None;
           Classifier.logits := Classifier.logits d;
           Classifier.dict_hidden_states := Classifier.dict_hidden_states d;
           Classifier.dict_attentions := Classifier.dict_attentions d |}).
Proof.
  intros H. pose proof H as Hinv.
  apply forward_inv in Hinv as (el & lg & il & l & Hel & Hbr & Hl & _ & _).
  unfold Classifier.forward in H |- *.
  change (Classifier.entities_embed self (without_labels args) rng)
    with (Classifier.entities_embed self args rng).
  change (Classifier.pooled_output self (without_labels args) rng)
    with (Classifier.pooled_output self args rng).
  change (Classifier.outputs_of self (without_labels args))
    with (Classifier.outputs_of self args).
  change (Classifier.resolved_return_dict self (without_labels args))
    with (Classifier.resolved_return_dict self args).
  rewrite Hel in H. cbn [bind] in H. rewrite Hbr in H. cbn [bind fst snd] in H.
  rewrite Hl in H. cbn [bind] in H.
  rewrite (intent_branch_without_labels _ _ _ _ _ _ Hbr).
  change (Classifier.entities_loss_of self (without_labels args)
            (Classifier.entities_embed self args rng)) with (@Ok (option R) None).
  cbn [bind fst snd]. change (Classifier.joint_loss (without_labels args) None None)
    with (@Ok (option R) None). cbn [bind].
  destruct (negb (if Classifier.training self then true
                  else Classifier.resolved_return_dict self args)); [discriminate|].
  destruct (Classifier.getattr _ _ Classifier.hidden_states) as [hs|]; cbn [bind] in *;
    [|discriminate].
  destruct (Classifier.getattr _ _ Classifier.attentions) as [att|]; cbn [bind] in *;
    [|discriminate].
  injection H as <-. reflexivity.
Qed.

Lemma forward_logits_ignore_labels_witness :
  Classifier.forward (Fixture.model false 0.1 2) (without_labels (Fixture.labelled (Some true)))
                     (Fixture.constant_rng 0 0) =
  Ok (Classifier.DictOutput
        {| Classifier.entities_loss := None;
           Classifier.intent_loss := None;
           Classifier.loss := None;
           Classifier.logits := Classifier.logits Fixture.labelled_dict;
           Classifier.dict_hidden_states := Classifier.dict_hidden_states Fixture.labelled_dict;
           Classifier.dict_attentions := Classifier.dict_attentions Fixture.labelled_dict |}).
Proof.
  apply forward_logits_ignore_labels. apply fixture_eval_dict.
Defined.

(** X20: gold entity tags without an attention mask make [forward] raise
    [AttributeError]: the mask is read only on that path, as
    [attention_mask.bool()]. *)
Theorem forward_entity_labels_need_mask (self : Classifier.DIETClassifier)
  (args : Classifier.forward_args) (rng : Classifier.randomness) :
  Classifier.entities_labels args <> None ->
  Classifier.attention_mask (Classifier.bert_inputs args) = None ->
  Classifier.forward self args rng =
  Raise (AttributeError "'NoneType' object has no attribute 'bool'").
Proof.
  intros Hlab Hmask. unfold Classifier.forward, Classifier.entities_loss_of.
  destruct (Classifier.entities_labels args); [|congruence].
  rewrite Hmask. reflexivity.
Qed.

Lemma forward_entity_labels_need_mask_witness :
  Classifier.forward (Fixture.model false 0.1 2)
    {| Classifier.bert_inputs :=
         {| Classifier.input_ids := Some [[101; 2054]%Z];
            Classifier.attention_mask := None;
            Classifier.token_type_ids := None;
            Classifier.position_ids := None;
            Classifier.head_mask := None;
            Classifier.inputs_embeds := None;
            Classifier.output_attentions := None;
            Classifier.output_hidden_states := None |};
       Classifier.intent_labels := Some [0%Z];
       Classifier.entities_labels := Some [[0%Z]];
       Classifier.return_dict := None |} (Fixture.constant_rng 0 0) =
  Raise (AttributeError "'NoneType' object has no attribute 'bool'").
Proof.
  apply forward_entity_labels_need_mask; [discriminate | reflexivity].
Defined.

Lemma embedding_in_range (n : nat) (weight : nat -> list R) (l : Z) :
  (0 <= l < Z.of_nat n)%Z -> Classifier.embedding n weight l = Ok (weight (Z.to_nat l)).
Proof.
  intros Hr. unfold Classifier.embedding.
  replace (0 <=? l)%Z with true by (symmetry; apply Z.leb_le; lia).
  replace (l <? Z.of_nat n)%Z with true by (symmetry; apply Z.ltb_lt; lia).
  reflexivity.
Qed.

Lemma embedding_out_of_range (n : nat) (weight : nat -> list R) (l : Z) :
  (l < 0 \/ Z.of_nat n <= l)%Z ->
  Classifier.embedding n weight l = Raise (IndexError "index out of range in self").
Proof.
  intros Hr. unfold Classifier.embedding.
  destruct (Z.leb_spec 0 l) as [H0 | H0]; cbn [andb]; [|reflexivity].
  replace (l <? Z.of_nat n)%Z with false by (symmetry; apply Z.ltb_ge; lia).
  reflexivity.
Qed.

Lemma embedding_batch (n : nat) (weight : nat -> list R) (labels : list Z) :
  (Forall (fun l => (0 <= l < Z.of_nat n)%Z) labels ->
   mapM (Classifier.embedding n weight) labels =
   Ok (map (fun l => weight (Z.to_nat l)) labels)) /\
  (Exists (fun l => (l < 0 \/ Z.of_nat n <= l)%Z) labels ->
   mapM (Classifier.embedding n weight) labels =
   Raise (IndexError "index out of range in self")).
Proof.
  induction labels as [|l labels [IHok IHbad]]; split.
  - reflexivity.
  - intros H. inversion H.
  - intros H. inversion H; subst. cbn [mapM map].
    rewrite embedding_in_range by assumption. rewrite IHok by assumption. reflexivity.
  - intros H. cbn [mapM].
    destruct (Z.leb_spec 0 l) as [H0 | H0].
    + destruct (Z.ltb_spec l (Z.of_nat n)) as [H1 | H1].
      * rewrite embedding_in_range by lia. cbn [bind].
        inversion H; subst; [lia|]. rewrite IHbad by assumption. reflexivity.
      * rewrite embedding_out_of_range by lia. reflexivity.
    + rewrite embedding_out_of_range by lia. reflexivity.
Qed.

(** X21: in the embedding-similarity strategy the gold intent labels are
    looked up in a table of [num_intents + 2] rows: the two ids after
    the vocabulary are accepted like intent ids, and a label outside
    [0 .. num_intents + 1] makes [forward] raise [IndexError], once the
    entity loss and the logits are computed. *)
Theorem forward_intent_label_range (self : Classifier.DIETClassifier)
  (args : Classifier.forward_args) (rng : Classifier.randomness)
  (labels : list Z) (el : option R) (lg : tensor2) :
  Classifier.use_dot_product self = true ->
  Classifier.intent_labels args = Some labels ->
  Classifier.entities_loss_of self args (Classifier.entities_embed self args rng) = Ok el ->
  Classifier.logit_intent
    (map (map (Classifier.intents_output_embed self))
         (Classifier.pooled_output self args rng))
    (Classifier.embed_all_intent self (Classifier.num_intents self)) = Ok lg ->
  (Forall (fun l => (0 <= l < Z.of_nat (Classifier.num_intents self) + 2)%Z) labels ->
   exists rows,
     mapM (Classifier.embedding (Classifier.num_intents self + 2)
             (Classifier.intents_label_embed self)) labels = Ok rows) /\
  (Exists (fun l => (l < 0 \/ Z.of_nat (Classifier.num_intents self) + 2 <= l)%Z) labels ->
   Classifier.forward self args rng = Raise (IndexError "index out of range in self")).
Proof.
  intros Hdot Hlab Hel Hlg.
  destruct (embedding_batch (Classifier.num_intents self + 2)
              (Classifier.intents_label_embed self) labels) as [Hok Hbad].
  split.
  - intros Hall. eexists. apply Hok.
    eapply Forall_impl; [|exact Hall]. cbn. intros; lia.
  - intros Hex. unfold Classifier.forward. rewrite Hel. cbn [bind].
    unfold Classifier.intent_branch. rewrite Hdot, Hlg, Hlab. cbn [bind].
    rewrite Hbad; [reflexivity|].
    eapply Exists_impl; [|exact Hex]. cbn. intros; lia.
Qed.

Lemma forward_intent_label_range_witness :
  Classifier.forward (Fixture.model false 0.1 2)
    {| Classifier.bert_inputs := Fixture.tokens;
       Classifier.intent_labels := Some [4%Z];
       Classifier.entities_labels := None;
       Classifier.return_dict := None |} (Fixture.constant_rng 0 0) =
  Raise (IndexError "index out of range in self").
Proof.
  apply (forward_intent_label_range (Fixture.model false 0.1 2) _ (Fixture.constant_rng 0 0)
           [4%Z] None [[1; -1]]).
  - reflexivity.
  - reflexivity.
  - reflexivity.
  - rewrite fixture_pooled_output. apply fixture_logits_kept, eps_le_1.
  - left. cbn. lia.
Defined.

Lemma loss_forward_nonneg self a p n v :
  Loss.forward self a p n = Ok v -> 0 <= v.
Proof.
  unfold Loss.forward.
  destruct (Loss.sim a p) as [sp|]; cbn [bind]; [|discriminate].
  destruct (Loss.sim a n) as [sn|]; cbn [bind]; [|discriminate].
  intros H. apply loss_margin_inv in H as (neg & Hn & Hne & ->).
  apply neg_term_nonneg in Hn.
  apply Rmult_le_pos.
  - apply tensor_sum_nonneg, shifted_pos_term_nonneg; assumption.
  - left. apply Rinv_0_lt_compat, INR_length_pos; assumption.
Qed.

(** X22: in the embedding-similarity strategy the intent loss that
    [forward] returns is never negative. *)
Theorem forward_intent_loss_nonneg (self : Classifier.DIETClassifier)
  (args : Classifier.forward_args) (rng : Classifier.randomness)
  (d : Classifier.output_dict) (v : R) :
  Classifier.use_dot_product self = true ->
  Classifier.forward self args rng = Ok (Classifier.DictOutput d) ->
  Classifier.intent_loss d = Some v ->
  0 <= v.
Proof.
  intros Hdot H Hv.
  apply forward_inv in H as (el & lg & il & l & _ & Hbr & _ & _ & Hshape).
  destruct Hshape as [(_ & _ & items & Hitems) | (_ & d' & Hd & _ & Hil & _)];
    [discriminate|].
  injection Hd as <-. rewrite Hv in Hil. subst il.
  unfold Classifier.intent_branch in Hbr. rewrite Hdot in Hbr.
  destruct (Classifier.logit_intent _ _); cbn [bind] in Hbr; [|discriminate].
  destruct (Classifier.intent_labels args) as [labels|]; [|discriminate].
  destruct (mapM _ labels); cbn [bind] in Hbr; [|discriminate].
  destruct (Classifier._neg_sample _ _ _ _); cbn [bind] in Hbr; [|discriminate].
  destruct (Loss.forward _ _ _ _) as [l0|] eqn:Hloss; cbn [bind] in Hbr; [|discriminate].
  injection Hbr as _ <-. eapply loss_forward_nonneg. exact Hloss.
Qed.

Lemma forward_intent_loss_nonneg_witness :
  exists v, Classifier.intent_loss Fixture.labelled_dict = Some v /\ 0 <= v.
Proof.
  exists 0. split; [reflexivity|].
  apply (forward_intent_loss_nonneg (Fixture.model false 0.1 2) (Fixture.labelled (Some true))
           (Fixture.constant_rng 0 0) Fixture.labelled_dict 0).
  - reflexivity.
  - apply fixture_eval_dict.
  - reflexivity.
Defined.

(** *** The similarity, again *)

Lemma dot_scale_l (c : R) (a : tensor1) :
  forall b, dot (map (Rmult c) a) b = c * dot a b.
Proof.
  unfold dot. induction a as [|x a IH]; intros [|y b]; cbn; try ring.
  rewrite IH. ring.
Qed.

Lemma norm2_scale (c : R) (a : tensor1) :
  0 <= c -> Loss.norm2 (map (Rmult c) a) = c * Loss.norm2 a.
Proof.
  intros Hc. unfold Loss.norm2. rewrite map_map.
  replace (tensor_sum (map (fun x => c * x * (c * x)) a))
    with (c * c * tensor_sum (map (fun x => x * x) a)).
  - rewrite sqrt_mult; [|nra | apply sum_squares_nonneg].
    rewrite sqrt_square by exact Hc. reflexivity.
  - induction a as [|x a IH]; cbn; [ring|]. rewrite <- IH. ring.
Qed.

(** X23: [sim] does not see the length of a vector: scaling an operand
    by [c > 0] leaves the similarity alone, as long as the norm stays at
    or above the floor [eps] of the normalization. *)
Theorem sim_scale_invariant (c : R) (a b : tensor1) :
  0 < c -> length a = length b ->
  Loss.eps <= Loss.norm2 a -> Loss.eps <= c * Loss.norm2 a ->
  Loss.sim_vec (map (Rmult c) a) b = Loss.sim_vec a b.
Proof.
  intros Hc Hlen Ha Hca.
  rewrite !sim_vec_dot by (rewrite ?length_map; exact Hlen).
  rewrite dot_scale_l, norm2_scale by lra.
  rewrite (Rmax_left (c * Loss.norm2 a)) by exact Hca.
  rewrite (Rmax_left (Loss.norm2 a)) by exact Ha.
  pose proof eps_pos. pose proof (floor_pos (Loss.norm2 b)).
  f_equal. field. repeat split; lra.
Qed.

Lemma norm2_3_4 : Loss.norm2 [3; 4] = 5.
Proof.
  unfold Loss.norm2. cbn [map tensor_sum].
  replace (3 * 3 + (4 * 4 + 0)) with (5 * 5) by ring.
  apply sqrt_square. lra.
Qed.

Lemma sim_scale_invariant_witness :
  Loss.sim_vec (map (Rmult 10) [3; 4]) [1; 0] = Loss.sim_vec [3; 4] [1; 0].
Proof.
  pose proof eps_le_1.
  apply sim_scale_invariant; try reflexivity; rewrite ?norm2_3_4; lra.
Defined.

(** X24: a zero vector has similarity 0 with every vector of its length:
    the floor of the normalization turns the division by a zero norm into
    a division by [eps]. *)
Theorem sim_of_zero_vector (a b : tensor1) :
  Forall (fun x => x = 0) a -> length a = length b ->
  Loss.sim_vec a b = Ok 0.
Proof.
  intros Hzero Hlen. rewrite sim_vec_dot by exact Hlen. f_equal.
  assert (Hdot : dot a b = 0).
  { clear Hlen. revert b. induction Hzero as [|x a -> _ IH]; intros [|y b];
      try reflexivity.
    rewrite dot_cons, IH. ring. }
  rewrite Hdot. ring.
Qed.

Lemma sim_of_zero_vector_witness : Loss.sim_vec [0; 0; 0] [1; -2; 5] = Ok 0.
Proof. apply sim_of_zero_vector; [repeat constructor | reflexivity]. Defined.
